(** * hybridbody: the perception-to-actuation pipeline

    A shallow embedding of the Python sources under [simulation/]:
    [camera/utils/config.py], [camera/utils/helpers.py],
    [camera/capture.py], [obstacle_detection/ground_plane.py],
    [obstacle_detection/segmentation.py], [haptic_feedback/belt_control.py]
    and [main.py].

    Numbers.  Python and numpy floats are embedded as exact rationals [Q]:
    every finite float is a rational, comparisons are those of the order,
    and [int] is truncation toward zero.  The rounding of the float
    operations, infinities and NaN are outside this part of the model, and
    what is proved on it is what rounding cannot change: comparisons,
    bounds with room to spare, sums of integers, monotonicity.  The
    concrete inputs are chosen likewise: distances and pixel coordinates
    are small dyadic numbers, on which the operations of the source are
    exact, and a height is compared with the tolerance only where it is 0
    or far from the tolerance in floats too.  The one value that rounding
    does change, the intensity sent to a motor, is computed on binary64
    floats in the module [float64].

    Effects.  The serial port is the list of byte strings written to it;
    functions that write or raise live in a small state-and-exception
    monad.  Python dictionaries keep insertion order, and the order of
    [sectors.items()] decides the order of the serial writes, so the
    sector dictionaries are association lists; the motor table is only
    looked up and is a [gmap]. *)

From Stdlib Require Import PrimFloat SpecFloat FloatOps.
From Stdlib Require Import QArith Qabs Qround Lqa ZArith Lia String Ascii DecimalString
  DecimalZ DecimalPos DecimalFacts.
From stdpp Require Import base option list gmap strings sorting.

Open Scope Z_scope.
Open Scope Q_scope.

(** ** Python values and builtins *)

Module py.

(** The exceptions the modelled code can raise. *)
Inductive exn : Type :=
| Exception (msg : string)
| KeyError (key : string)
| IndexError
| ValueError (msg : string)
| OverflowError (msg : string)
| KeyboardInterrupt.

Inductive result (A : Type) : Type :=
| Ok (a : A)
| Raise (e : exn).
Arguments Ok {A} a.
Arguments Raise {A} e.

(** [int(x)] on a float: truncation toward zero. *)
Definition int (x : Q) : Z := Z.quot (Qnum x) (Z.pos (Qden x)).

(** Truth value of a float: only [0.0] is false.  ([None] is false too;
    the callers match on it.) *)
Definition truthy (x : Q) : bool := negb (Qeq_bool x 0).

Definition lt (x y : Q) : bool := negb (Qle_bool y x).
Definition le (x y : Q) : bool := Qle_bool x y.

(** [min] of a non-empty list [x :: xs]: the first smallest element. *)
Fixpoint min (x : Q) (xs : list Q) : Q :=
  match xs with
  | [] => x
  | y :: xs' => min (if lt y x then y else x) xs'
  end.

(** [round(x)]: to the nearest integer, a tie to the even one. *)
Definition round (x : Q) : Z :=
  let f := Qfloor x in
  let r := x - inject_Z f in
  if lt r (1 # 2) then f
  else if lt (1 # 2) r then (f + 1)%Z
  else if Z.even f then f else (f + 1)%Z.

(** [str(n)] for an integer, as an f-string formats it. *)
Definition str (n : Z) : string := NilZero.string_of_int (Z.to_int n).

(** An insertion-ordered dictionary; [items] is the list itself. *)
Abbreviation dict K V := (list (K * V)%type) (only parsing).

Definition keys {K V} (d : dict K V) : list K := fst <$> d.

Fixpoint get {V} (d : dict string V) (k : string) : option V :=
  match d with
  | [] => None
  | (k', v) :: d' => if String.eqb k' k then Some v else get d' k
  end.

(** [d[k] = v] and [d[k].append(z)] on an existing key keep its place. *)
Fixpoint alter {V} (f : V → V) (k : string) (d : dict string V) : dict string V :=
  match d with
  | [] => []
  | (k', v) :: d' =>
      if String.eqb k' k then (k', f v) :: d' else (k', v) :: alter f k d'
  end.

End py.

Import py.

(** ** [camera/utils/config.py] *)

Module config.
Definition CAMERA_INDEX : Z := 0.
Definition FRAME_WIDTH : Q := 640.
Definition FRAME_HEIGHT : Q := 480.
Definition FOCAL_LENGTH : Q := 525.0.
Definition GROUND_HEIGHT_THRESHOLD : Q := 1.2.
Definition WARNING_DISTANCE : Q := 2.0.
Definition SECTORS : list string := ["N"; "NE"; "NW"]%string.
Definition SIMULATION_ENABLED : bool := true.
End config.

(** ** A little of numpy: two-dimensional arrays as lists of rows *)

Module np.

Abbreviation array2 A := (list (list A)) (only parsing).

(** Every numpy array is rectangular; a list of rows need not be. *)
Definition rectangular {A} (a : array2 A) : Prop :=
  ∀ row, row ∈ a → length row = length (hd [] a).

(** [a.shape] is [(rows, columns)]. *)
Definition shape {A} (a : array2 A) : nat * nat :=
  (length a, length (hd [] a)).

Definition of_nat (n : nat) : Q := inject_Z (Z.of_nat n).

Definition arange (n : nat) : list Q := of_nat <$> seq 0 n.

(** [np.meshgrid(xs, ys)]: both grids have [len(ys)] rows and [len(xs)]
    columns; the first repeats [xs] in every row, the second holds
    [ys[i]] throughout row [i]. *)
Definition meshgrid (xs ys : list Q) : array2 Q * array2 Q :=
  ((λ _, xs) <$> ys, (λ y, (λ _, y) <$> xs) <$> ys).

(** [a[v, u]], when the indices are in range. *)
Definition item {A} (a : array2 A) (v u : nat) : option A :=
  a !! v ≫= (.!! u).

(** Element-wise operations, with a scalar or between equal shapes. *)
Definition map {A B} (f : A → B) (a : array2 A) : array2 B :=
  fmap (M := list) (fmap (M := list) f) a.
Definition map2 {A B C} (f : A → B → C) (a : array2 A) (b : array2 B) : array2 C :=
  zip_with (zip_with f) a b.

Definition sub_scalar (a : array2 Q) (s : Q) : array2 Q := map (λ x, x - s) a.
Definition div_scalar (a : array2 Q) (s : Q) : array2 Q := map (λ x, x / s) a.
Definition mul (a b : array2 Q) : array2 Q := map2 Qmult a b.
Definition neg (a : array2 Q) : array2 Q := map Qopp a.
Definition abs (a : array2 Q) : array2 Q := map Qabs a.
Definition lt_scalar (a : array2 Q) (s : Q) : array2 bool := map (λ x, py.lt x s) a.
Definition invert (a : array2 bool) : array2 bool := map negb a.

(** The column indices of the true entries of one row. *)
Fixpoint true_columns (row : list bool) (u : nat) : list nat :=
  match row with
  | [] => []
  | b :: row' => (if b then [u] else []) ++ true_columns row' (S u)
  end.

(** [np.where(mask)]: the row indices and the column indices of the true
    entries, in row-major order. *)
Fixpoint where_from (mask : array2 bool) (v : nat) : list nat * list nat :=
  match mask with
  | [] => ([], [])
  | row :: mask' =>
      let us := true_columns row 0 in
      let '(vs', us') := where_from mask' (S v) in
      (((λ _, v) <$> us) ++ vs', us ++ us')
  end.
Definition where_ (mask : array2 bool) : list nat * list nat := where_from mask 0.

(** [xs[mask]] along one axis: the entries the mask selects, in order. *)
Fixpoint select {A} (xs : list A) (mask : list bool) : list A :=
  match xs, mask with
  | x :: xs', b :: mask' => (if b then [x] else []) ++ select xs' mask'
  | _, _ => []
  end.

(** [a[mask]] with a boolean mask: the selected entries in row-major
    order; the shapes must agree. *)
Definition getitem_mask {A} (a : array2 A) (mask : array2 bool) : result (list A) :=
  if bool_decide (shape a = shape mask)
  then Ok (concat (zip_with select a mask))
  else Raise IndexError.

End np.

(** ** Points and obstacles *)

(** A row [[u, v, z]] of the point cloud: pixel column, pixel row, depth. *)
Record point : Type := Point { pu : Q; pv : Q; pz : Q }.

(** [np.vstack((u, v, z)).T]: the integer indices become floats. *)
Fixpoint vstack_T (u v : list nat) (z : list Q) : list point :=
  match u, v, z with
  | u0 :: u', v0 :: v', z0 :: z' =>
      Point (np.of_nat u0) (np.of_nat v0) z0 :: vstack_T u' v' z'
  | _, _, _ => []
  end.

Definition sum_by (f : point → Q) (ps : list point) : Q :=
  foldr (λ p acc, f p + acc) 0 ps.

(** [np.mean(cluster_points, axis=0)].  The columns [u] and [v] hold
    integers, whose sums numpy forms without rounding; the mean of the
    depths is rounded by numpy and is exact here. *)
Definition mean_axis0 (ps : list point) : point :=
  let n := np.of_nat (length ps) in
  Point (sum_by pu ps / n) (sum_by pv ps / n) (sum_by pz ps / n).

(** The dictionary [{"centroid": ..., "points": ...}]. *)
Record obstacle : Type := Obstacle { centroid : point; points : list point }.

(** ** The world outside and the monad of code that writes or raises *)

(** What the process has done so far: the byte strings written to the
    serial port [ser], the obstacle lists handed to the visualizer, and the
    lines printed, each oldest first. *)
Record world : Type := World {
  ser : list string;
  scene : list (list obstacle);
  stdout : list string
}.

Definition world0 : world := World [] [] [].

Definition IO (A : Type) : Type := world → result A * world.

#[global] Instance IO_ret : MRet IO := λ A a w, (Ok a, w).
#[global] Instance IO_bind : MBind IO := λ A B f m w,
  match m w with
  | (Ok a, w') => f a w'
  | (Raise e, w') => (Raise e, w')
  end.

Definition raise {A} (e : exn) : IO A := λ w, (Raise e, w).

(** A pure computation that may raise, run inside [IO]. *)
Definition lift {A} (r : result A) : IO A := λ w, (r, w).

Definition ser_write (line : string) : IO unit :=
  λ w, (Ok tt, World (ser w ++ [line]) (scene w) (stdout w)).

Definition print (line : string) : IO unit :=
  λ w, (Ok tt, World (ser w) (scene w) (stdout w ++ [line])).

(** [for x in xs: body(x)]. *)
Fixpoint for_each {A} (xs : list A) (body : A → IO unit) : IO unit :=
  match xs with
  | [] => mret tt
  | x :: xs' => body x ;; for_each xs' body
  end.

#[global] Instance result_ret : MRet result := λ A a, Ok a.
#[global] Instance result_bind : MBind result := λ A B f m,
  match m with
  | Ok a => f a
  | Raise e => Raise e
  end.

(** ** [haptic_feedback/belt_control.py] *)

Definition motor_map : gmap string Z :=
  {[ "N" := 0%Z; "NE" := 1%Z; "NW" := 2%Z ]}.

(** Lines 13 and 14: the intensity of a distance. *)
Definition intensity_of (distance : Q) : Z :=
  let intensity := py.int (255 * (1 - distance / config.WARNING_DISTANCE)) in
  Z.max 0 (Z.min 255 intensity).

(** The bytes of [f"{motor_id},{intensity}\n"]. *)
Definition command_line (motor_id intensity : Z) : string :=
  (py.str motor_id ++ "," ++ py.str intensity ++ String "010" "")%string.

Definition trigger_haptic_feedback (sectors : dict string (option Q)) : IO unit :=
  for_each sectors (λ '(sector, distance),
    match distance with
    | None => mret tt
    | Some d =>
        if py.truthy d && py.lt d config.WARNING_DISTANCE
        then
          match motor_map !! sector with
          | None => raise (KeyError sector)
          | Some motor_id => ser_write (command_line motor_id (intensity_of d))
          end
        else mret tt
    end).

(** The actuation law in the words of the specification, section 4.5:
    [clamp(round(255 * (1 - distance/warningDistance)), 0, 255)]. *)
Definition computeIntensity_spec (distance warningDistance : Q) : Z :=
  Z.max 0 (Z.min 255 (py.round (255 * (1 - distance / warningDistance)))).

(** What one sector adds to the serial port when its motor is known. *)
Definition sector_output (reading : string * option Q) : list string :=
  match reading.2 with
  | Some d =>
      if py.truthy d && py.lt d config.WARNING_DISTANCE
      then [command_line (default 0%Z (motor_map !! reading.1)) (intensity_of d)]
      else []
  | None => []
  end.

(** ** [haptic_feedback/belt_control.py] on binary64 floats

    Line 13 divides, subtracts and multiplies in binary64, rounding each
    time, and [int] cuts off what is left; the rounded product can lie on
    the other side of an integer than the exact one.  At the float [0.4],
    which is a little above 0.4, it is [204.00000000000003] and the
    intensity is 204, where the exact product for the same float lies just
    below 204.  Where a statement gives the intensity itself, the function
    is therefore embedded once more, on the floats of the machine. *)

Module float64.

Definition WARNING_DISTANCE : float := 2.0.

(** [int(x)]: a finite float [(-1)^s * m * 2^e] loses its fraction;
    Python raises on the infinities and on NaN. *)
Definition int (x : float) : result Z :=
  match Prim2SF x with
  | S754_zero _ => Ok 0%Z
  | S754_finite negative m e =>
      let magnitude := Z.shiftl (Z.pos m) e in
      Ok (if negative then (- magnitude)%Z else magnitude)
  | S754_infinity _ => Raise (OverflowError "cannot convert float infinity to integer")
  | S754_nan => Raise (ValueError "cannot convert float NaN to integer")
  end.

(** Truth value of a float: [0.0] and [-0.0] are false, NaN is true. *)
Definition truthy (x : float) : bool := negb (x =? 0)%float.

Definition trigger_haptic_feedback (sectors : dict string (option float)) : IO unit :=
  for_each sectors (λ '(sector, distance),
    match distance with
    | None => mret tt
    | Some d =>
        if truthy d && (d <? WARNING_DISTANCE)%float
        then
          match motor_map !! sector with
          | None => raise (KeyError sector)
          | Some motor_id =>
              intensity ← lift (int (255 * (1 - d / WARNING_DISTANCE))%float);
              let intensity := Z.max 0 (Z.min 255 intensity) in
              ser_write (command_line motor_id intensity)
          end
        else mret tt
    end).

(** What one sector adds to the serial port when its motor is known and
    line 13 can be converted. *)
Definition sector_output (reading : string * option float) : list string :=
  match reading.2 with
  | Some d =>
      if truthy d && (d <? WARNING_DISTANCE)%float
      then
        match int (255 * (1 - d / WARNING_DISTANCE))%float with
        | Ok intensity =>
            [command_line (default 0%Z (motor_map !! reading.1))
               (Z.max 0 (Z.min 255 intensity))]
        | Raise _ => []
        end
      else []
  | None => []
  end.

End float64.

(** ** [obstacle_detection/ground_plane.py] *)

(** The literal [0.1] of line 16, the tolerance band. *)
Definition GROUND_TOLERANCE : Q := 0.1.

(** Line 14: the heights relative to the ground, one per pixel. *)
Definition heights_of (depth_map : np.array2 Q) : np.array2 Q :=
  let '(height, width) := np.shape depth_map in
  let '(u, v) := np.meshgrid (np.arange width) (np.arange height) in
  let z := depth_map in
  let x := np.div_scalar (np.mul (np.sub_scalar u (np.of_nat width / 2)) z)
             config.FOCAL_LENGTH in
  let y := np.div_scalar (np.mul (np.sub_scalar v (np.of_nat height / 2)) z)
             config.FOCAL_LENGTH in
  np.sub_scalar (np.neg y) config.GROUND_HEIGHT_THRESHOLD.

Definition estimate_ground_plane (depth_map : np.array2 Q) : np.array2 bool :=
  let heights := heights_of depth_map in
  let ground_mask := np.lt_scalar (np.abs heights) GROUND_TOLERANCE in
  ground_mask.

(** ** scikit-learn's [DBSCAN]

    [sklearn.cluster.DBSCAN] is a third-party estimator, not part of the
    repository.  The model follows its documented algorithm: [fit] rejects
    an array without samples; the neighbourhood of a sample holds every
    sample within [eps] of it, itself included; a sample is a core sample
    when its neighbourhood has at least [min_samples] members; the samples
    are visited in index order and every still unlabelled core sample
    starts a depth-first search that gives the next label to all it
    reaches and stops at non-core samples; [-1] marks noise.  Distances
    are compared through their squares.  [fit] also rejects samples that
    are NaN or infinite; the samples here are rationals, so what is said
    of [fit] is said of finite samples. *)

Module sklearn.

Definition sqdist (p q : point) : Q :=
  (pu p - pu q) * (pu p - pu q) + (pv p - pv q) * (pv p - pv q)
  + (pz p - pz q) * (pz p - pz q).

(** The indices, counted from [j], of the samples of [X] within [eps] of [p]. *)
Fixpoint neighbors_from (eps : Q) (p : point) (X : list point) (j : nat) : list nat :=
  match X with
  | [] => []
  | q :: X' =>
      (if py.le (sqdist p q) (eps * eps) then [j] else [])
      ++ neighbors_from eps p X' (S j)
  end.

Definition neighborhoods (eps : Q) (X : list point) : list (list nat) :=
  (λ p, neighbors_from eps p X 0) <$> X.

Definition core_samples (min_samples : nat) (nbhds : list (list nat)) : list bool :=
  (λ nb, bool_decide (min_samples ≤ length nb)%nat) <$> nbhds.

Definition unlabelled (labels : list Z) (i : nat) : bool :=
  bool_decide (labels !! i = Some (-1)%Z).

(** The [for] loop that pushes the unlabelled neighbours; the head of the
    list is the back of the stack. *)
Definition push_unlabelled (labels : list Z) (neighb stack : list nat) : list nat :=
  foldl (λ st v, if unlabelled labels v then v :: st else st) stack neighb.

(** The [while True] loop: the search from sample [i] with label
    [label_num].  Every round labels a sample or pops the stack, so
    [fuel] rounds with [fuel] above [n * (n + 1)] are never used up. *)
Fixpoint expand (fuel : nat) (is_core : list bool) (nbhds : list (list nat))
    (label_num : Z) (i : nat) (stack : list nat) (labels : list Z) : list Z :=
  match fuel with
  | O => labels
  | S fuel' =>
      let '(labels1, stack1) :=
        if unlabelled labels i then
          let labels1 := <[i := label_num]> labels in
          (labels1,
           if default false (is_core !! i)
           then push_unlabelled labels1 (default [] (nbhds !! i)) stack
           else stack)
        else (labels, stack) in
      match stack1 with
      | [] => labels1
      | j :: stack2 => expand fuel' is_core nbhds label_num j stack2 labels1
      end
  end.

(** One round of the outer [for] loop of [dbscan_inner]: a labelled or
    non-core sample is passed over, another one starts a cluster. *)
Definition visit (fuel : nat) (is_core : list bool) (nbhds : list (list nat))
    (state : list Z * Z) (i : nat) : list Z * Z :=
  let '(labels, label_num) := state in
  if negb (unlabelled labels i) || negb (default false (is_core !! i))
  then (labels, label_num)
  else (expand fuel is_core nbhds label_num i [] labels, (label_num + 1)%Z).

Definition dbscan_inner (is_core : list bool) (nbhds : list (list nat))
    (labels : list Z) : list Z :=
  let n := length labels in
  (foldl (visit (S (n * S n)) is_core nbhds) (labels, 0%Z) (seq 0 n)).1.

(** [DBSCAN(eps, min_samples).fit(X).labels_]. *)
Definition DBSCAN_fit (eps : Q) (min_samples : nat) (X : list point) : result (list Z) :=
  match X with
  | [] => Raise (ValueError
      "Found array with 0 sample(s) (shape=(0, 3)) while a minimum of 1 is required by DBSCAN.")
  | _ =>
      let nbhds := neighborhoods eps X in
      let is_core := core_samples min_samples nbhds in
      Ok (dbscan_inner is_core nbhds ((λ _, (-1)%Z) <$> X))
  end.

End sklearn.

(** ** [obstacle_detection/segmentation.py] *)

(** Lines 7 to 11: the point cloud of the non-ground pixels. *)
Definition point_cloud (depth_map : np.array2 Q) (ground_mask : np.array2 bool)
  : result (list point) :=
  let non_ground := np.invert ground_mask in
  let '(v, u) := np.where_ non_ground in
  z ← np.getitem_mask depth_map non_ground;
  mret (vstack_T u v z).

(** [for label in unique_labels]: the labels are the small integers
    [0 .. k-1], each its own hash, and CPython walks a set of such integers
    in increasing order. *)
Definition iterate (labels : gset Z) : list Z := merge_sort Z.le (elements labels).

(** Lines 16 to 21: one obstacle per label other than [-1]. *)
Definition extract_obstacles (points : list point) (labels : list Z) : list obstacle :=
  let unique_labels : gset Z := list_to_set labels ∖ {[ (-1)%Z ]} in
  (λ label,
     let cluster_points :=
       np.select points ((λ l, bool_decide (l = label)) <$> labels) in
     let centroid := mean_axis0 cluster_points in
     Obstacle centroid cluster_points) <$> iterate unique_labels.

Definition segment_obstacles (depth_map : np.array2 Q) (ground_mask : np.array2 bool)
  : result (list obstacle) :=
  points ← point_cloud depth_map ground_mask;
  labels ← sklearn.DBSCAN_fit 10 20 points;
  mret (extract_obstacles points labels).

(** ** [camera/capture.py] *)

(** [cap.read()] hands back [(ret, frame)]; what the camera delivers is
    the environment's choice. *)
Definition capture_frame {Frame : Type} (read : bool * Frame) : result Frame :=
  let '(ret, frame) := read in
  if negb ret
  then Raise (Exception "Failed to capture frame from camera")
  else Ok frame.

(** ** [simulation/visualizer.py], as far as the pipeline sees it *)

Definition update_simulation (obstacles : list obstacle) : IO unit :=
  λ w, (Ok tt, World (ser w) (scene w ++ [obstacles]) (stdout w)).

(** ** [camera/utils/helpers.py] and [main.py] *)

(** What one round of the frame loop reads from outside: the camera's
    answer and the key code [cv2.waitKey(1)] returns. *)
Record cycle (Frame : Type) : Type := Cycle { read : bool * Frame; key : Z }.
Arguments Cycle {Frame} read key.
Arguments read {Frame} c.
Arguments key {Frame} c.

(** The rounds the environment offers, or an interrupt from the keyboard. *)
Inductive event (Frame : Type) : Type :=
| Tick (c : cycle Frame)
| CtrlC.
Arguments Tick {Frame} c.
Arguments CtrlC {Frame}.

(** How [main] stands when the scripted events are used up. *)
Inductive loop_state : Type :=
| Returned   (* left the loop through [break] *)
| Looping.   (* still in the loop, waiting for the next frame *)

Inductive process : Type :=
| Exited
| Running.

(** [str(e)] as [print(f"Error: {e}")] shows it. *)
Definition exn_str (e : exn) : string :=
  match e with
  | Exception msg => msg
  | KeyError k => ("'" ++ k ++ "'")%string
  | IndexError => "boolean index did not match indexed array"   (* abridged *)
  | ValueError msg => msg
  | OverflowError msg => msg
  | KeyboardInterrupt => ""
  end.

Section Pipeline.

(** numpy's [arctan2] and [pi], and the depth estimator on the frames of
    the camera, are taken as they come. *)
Variable arctan2 : Q → Q → Q.
Variable pi : Q.
Variable Frame : Type.
Variable estimate_depth : Frame → np.array2 Q.

(** Line 10 of [helpers.py]. *)
Definition angle_of (u : Q) : Q :=
  arctan2 (u - config.FRAME_WIDTH / 2) config.FOCAL_LENGTH * 180 / pi.

(** [sectors[k].append(z)]. *)
Definition append_to (k : string) (z : Q) (sectors : dict string (list Q))
  : dict string (list Q) :=
  py.alter (λ zs, zs ++ [z]) k sectors.

Definition sort_into_sectors (obstacles : list obstacle) : dict string (list Q) :=
  foldl (λ sectors obs,
           let '(Point u _ z) := centroid obs in
           let angle := angle_of u in
           if py.le (-15) angle && py.le angle 15 then append_to "N" z sectors
           else if py.lt 15 angle && py.le angle 45 then append_to "NE" z sectors
           else if py.le (-45) angle && py.lt angle (-15) then append_to "NW" z sectors
           else sectors)
        [("N", []); ("NE", []); ("NW", [])]%string obstacles.

Definition map_obstacles_to_sectors (obstacles : list obstacle)
  : dict string (option Q) :=
  let sectors := sort_into_sectors obstacles in
  let closest :=
    (λ '(sector, distances),
       (sector, match distances with
                | [] => None
                | d :: ds => Some (py.min d ds)
                end)) <$> sectors in
  closest.

(** [main]: the frame loop, run against the scripted events.  The serial
    port and the visualizer are taken to accept what they are given, and
    an interrupt from the keyboard to arrive between two rounds; a write
    that fails or an interrupt in the middle of a round is not among the
    runs described. *)
Fixpoint main (script : list (event Frame)) : IO loop_state :=
  match script with
  | [] => mret Looping
  | CtrlC :: _ => raise KeyboardInterrupt
  | Tick c :: script' =>
      frame ← lift (capture_frame (read c));
      let depth_map := estimate_depth frame in
      let ground_mask := estimate_ground_plane depth_map in
      obstacles ← lift (segment_obstacles depth_map ground_mask);
      let sectors := map_obstacles_to_sectors obstacles in
      trigger_haptic_feedback sectors ;;
      (if config.SIMULATION_ENABLED then update_simulation obstacles else mret tt) ;;
      if (Z.land (key c) 255 =? 113)%Z then mret Returned else main script'
  end.

(** The [__main__] block around it. *)
Definition run_main (script : list (event Frame)) (w : world) : process * world :=
  match main script w with
  | (Ok Looping, w') => (Running, w')
  | (Ok Returned, w') => (Exited, w')
  | (Raise KeyboardInterrupt, w') =>
      (Exited, snd (print "Shutting down..." w'))
  | (Raise e, w') =>
      (Exited, snd (print ("Error: " ++ exn_str e) w'))
  end.

End Pipeline.

(** ** Auxiliary definitions for the statements *)

(** The three angular bands of [helpers.py], lines 11 to 16. *)
Definition in_N (angle : Q) : bool := py.le (-15) angle && py.le angle 15.
Definition in_NE (angle : Q) : bool := py.lt 15 angle && py.le angle 45.
Definition in_NW (angle : Q) : bool := py.le (-45) angle && py.lt angle (-15).

(** The depths of the obstacles whose angle is in a band, in order. *)
Definition zs_where (angle_of : Q → Q) (band : Q → bool) (obstacles : list obstacle)
  : list Q :=
  (λ o, pz (centroid o))
    <$> List.filter (λ o, band (angle_of (pu (centroid o)))) obstacles.

(** The height line 14 computes for depth [z] in row [v] of an image with
    [rows] rows. *)
Definition height_at (rows : nat) (v : nat) (z : Q) : Q :=
  - ((np.of_nat v - np.of_nat rows / 2) * z / config.FOCAL_LENGTH)
  - config.GROUND_HEIGHT_THRESHOLD.

(** Every label given so far lies below the next label and is carried by
    a core sample: the invariant of the outer loop of [dbscan_inner]. *)
Definition clusters_have_cores (is_core : list bool) (state : list Z * Z) : Prop :=
  (0 ≤ state.2)%Z ∧
  ∀ j l, state.1 !! j = Some l →
    l = (-1)%Z ∨
    ((0 ≤ l < state.2)%Z ∧ ∃ i, state.1 !! i = Some l ∧ is_core !! i = Some true).

(** How many samples are still without a label. *)
Definition unlabelled_count (labels : list Z) : nat :=
  length (filter (λ l, l = (-1)%Z) labels).

(** ** Concrete inputs *)

(** A sector reading with an obstacle touching the camera in [N] and one at
    a distance of 1.5 in [NW], and one with the obstacle of [N] at 0.4. *)
Definition reading_touching : dict string (option float) :=
  [("N", Some 0%float); ("NE", None); ("NW", Some 1.5%float)]%string.

#[warnings="-inexact-float"]
Definition reading_near : dict string (option float) :=
  [("N", Some 0.4%float); ("NE", None); ("NW", Some 1.5%float)]%string.

(** A one-pixel depth map whose pixel lies on the ground:
    [-((0 - 1/2) * 1260 / 525) - 1.2 = 0]. *)
Definition ground_pixel_depth : list (list Q) := [[1260]].

(** Two rings of pixels [(column, row)], of radius nine around [(9, 9)] and
    [(27, 9)], with their centres; the rings share the three pixels of
    column 18.  No two of the pixels are exactly ten apart. *)
Definition ring_pixels : list (nat * nat) :=
  [(8, 0); (11, 0); (25, 0); (28, 0); (5, 1); (14, 1); (22, 1); (31, 1);
   (3, 2); (33, 2); (16, 3); (20, 3); (1, 5); (35, 5); (18, 6); (0, 8);
   (36, 8); (9, 9); (18, 9); (27, 9); (0, 10); (36, 10); (18, 12); (1, 13);
   (35, 13); (16, 15); (20, 15); (3, 16); (33, 16); (5, 17); (14, 17);
   (22, 17); (31, 17); (8, 18); (11, 18); (25, 18); (28, 18)]%nat.

(** A depth map of 19 rows and 37 columns: depth 0 on the ring pixels, and
    elsewhere the depth [1260 / (19 - 2 v)] that puts row [v] at height 0. *)
Definition ring_depth : list (list Q) :=
  (λ v, (λ u, if bool_decide ((u, v) ∈ ring_pixels) then 0
              else 1260 / inject_Z (19 - 2 * Z.of_nat v))
          <$> seq 0 37)
    <$> seq 0 19.

(** What [segment_obstacles] makes of the rings. *)
Definition ring_obstacles : list obstacle :=
  Eval vm_compute in
    match segment_obstacles ring_depth (estimate_ground_plane ring_depth) with
    | Ok obstacles => obstacles
    | Raise _ => []
    end.

(** A rational stand-in for numpy's [arctan2] and [pi], for running the
    pipeline on examples: [arctan t] is taken as [t / (1 + 0.28 t^2)] for
    [|t| <= 1] and reflected outside. *)
Definition pi_approx : Q := 355 # 113.

Definition arctan_approx (t : Q) : Q :=
  if py.le (Qabs t) 1 then t / (1 + (28 # 100) * t * t)
  else
    let r := / t in
    (if py.lt 0 t then pi_approx / 2 else - (pi_approx / 2))
    - r / (1 + (28 # 100) * r * r).

Definition arctan2_approx (y x : Q) : Q :=
  if py.lt 0 x then arctan_approx (y / x)
  else if py.lt x 0 then
    (if py.le 0 y then arctan_approx (y / x) + pi_approx
     else arctan_approx (y / x) - pi_approx)
  else if py.lt 0 y then pi_approx / 2
  else if py.lt y 0 then - (pi_approx / 2)
  else 0.

(** Frames that are their own depth maps. *)
Definition depth_frame : Type := list (list Q).
Definition estimate_depth_id : depth_frame → list (list Q) := λ frame, frame.

(** The camera delivers nothing in the first round and would deliver a
    frame in the second, where the user presses [q]. *)
Definition script_dropped_frame : list (event depth_frame) :=
  [Tick (Cycle (false, []) (-1)); Tick (Cycle (true, [[0]]) 113)].

(** ** [depth_estimation/midas.py], lines 27 to 30 *)

(** [max] of a non-empty list [x :: xs]: the first largest element. *)
Fixpoint max_of (x : Q) (xs : list Q) : Q :=
  match xs with
  | [] => x
  | y :: xs' => max_of (if py.lt x y then y else x) xs'
  end.

(** What the normalisation makes of the interpolated network output: a
    depth map; or one that is NaN throughout, when the output is uniform and
    [0 / 0] is taken everywhere; [min()] of a tensor without entries
    raises, which the interpolation to the frame size rules out. *)
Inductive normalized : Type :=
| Normalized (depth : list (list Q))
| NormalizedNaN
| EmptyTensor.

Definition normalize_depth (depth : list (list Q)) : normalized :=
  match concat depth with
  | [] => EmptyTensor
  | d :: ds =>
      let depth_min := py.min d ds in
      let depth_max := max_of d ds in
      if Qeq_bool depth_max depth_min then NormalizedNaN
      else
        let depth_normalized :=
          np.div_scalar (np.sub_scalar depth depth_min) (depth_max - depth_min) in
        Normalized depth_normalized
  end.

(** ** [simulation/visualizer.py], lines 18 to 27 *)

(** Where [Visualizer.update_simulation] puts the box of an obstacle:
    [box.setPos(x, z, -y)]. *)
Definition box_position (obs : obstacle) : Q * Q * Q :=
  let '(Point u v z) := centroid obs in
  let x := (u - config.FRAME_WIDTH / 2) * z / config.FOCAL_LENGTH in
  let y := (v - config.FRAME_HEIGHT / 2) * z / config.FOCAL_LENGTH in
  (x, z, - y).

(** The boxes under the fresh [obstacles] node, in the order of the loop. *)
Definition Visualizer_update_simulation (obstacles : list obstacle) : list (Q * Q * Q) :=
  box_position <$> obstacles.

(** ** Auxiliary definitions for the further properties *)


(** Whether a character occurs in a string. *)
Fixpoint occurs (c : ascii) (s : string) : bool :=
  match s with
  | EmptyString => false
  | String c' s' => Ascii.eqb c c' || occurs c s'
  end.

(** The point cloud of the rings, the smaller of their two obstacles, and
    the samples within distance 10 of the centre [(9, 9)], sample 17. *)
Definition ring_cloud : list point :=
  Eval vm_compute in
    match point_cloud ring_depth (estimate_ground_plane ring_depth) with
    | Ok cloud => cloud
    | Raise _ => []
    end.

Definition ring_small_obstacle : obstacle :=
  Eval vm_compute in default (Obstacle (Point 0 0 0) []) (last ring_obstacles).

Definition ring_centre_neighbours : list nat :=
  Eval vm_compute in sklearn.neighbors_from 10 (Point 9 9 0) ring_cloud 0.

(** * Properties *)

(** ** Comparisons and truncation *)

Lemma lt_spec (x y : Q) : py.lt x y = true ↔ x < y.
Proof.
  unfold py.lt. rewrite negb_true_iff, <- not_true_iff_false, Qle_bool_iff.
  split; [apply Qnot_le_lt | apply Qlt_not_le].
Qed.

Lemma lt_false (x y : Q) : py.lt x y = false ↔ y <= x.
Proof. unfold py.lt. by rewrite negb_false_iff, Qle_bool_iff. Qed.

Lemma le_spec (x y : Q) : py.le x y = true ↔ x <= y.
Proof. apply Qle_bool_iff. Qed.

Lemma truthy_spec (x : Q) : py.truthy x = true ↔ ¬ x == 0.
Proof.
  unfold py.truthy.
  by rewrite negb_true_iff, <- not_true_iff_false, Qeq_bool_iff.
Qed.

(** Truncation is the floor of a non-negative and the ceiling of a
    non-positive number. *)
Lemma int_nonneg (x : Q) : 0 <= x → py.int x = Qfloor x.
Proof.
  destruct x as [a b]. unfold py.int, Qfloor, Qle. simpl. intros H.
  apply Z.quot_div_nonneg; lia.
Qed.

Lemma int_nonpos (x : Q) : x <= 0 → py.int x = Qceiling x.
Proof.
  destruct x as [a b]. unfold py.int, Qceiling, Qfloor, Qle. simpl. intros H.
  rewrite <- (Z.opp_involutive a) at 1. rewrite Z.quot_opp_l by lia.
  f_equal. apply Z.quot_div_nonneg; lia.
Qed.

Lemma int_mono (x y : Q) : x <= y → (py.int x ≤ py.int y)%Z.
Proof.
  intros Hxy.
  destruct (Qlt_le_dec x 0) as [Hx|Hx]; destruct (Qlt_le_dec y 0) as [Hy|Hy].
  - rewrite !int_nonpos by lra. by apply Qceiling_resp_le.
  - rewrite (int_nonpos x), (int_nonneg y) by lra.
    transitivity 0%Z.
    + change 0%Z with (Qceiling 0). apply Qceiling_resp_le. lra.
    + change 0%Z with (Qfloor 0). by apply Qfloor_resp_le.
  - lra.
  - rewrite !int_nonneg by lra. by apply Qfloor_resp_le.
Qed.

(** ** The actuation law *)

Lemma intensity_of_mono (d1 d2 : Q) :
  d1 <= d2 → (intensity_of d2 ≤ intensity_of d1)%Z.
Proof.
  intros H. unfold intensity_of.
  apply Z.max_le_compat_l, Z.min_le_compat_l, int_mono.
  unfold config.WARNING_DISTANCE.
  assert (E : ∀ d, d / 2.0 == d * (1 # 2)) by (intros d; field).
  rewrite !E. lra.
Qed.

(** C5: the intensity computed on lines 13 and 14 of [belt_control.py] is
    255 at distance 0, is 0 at the warning distance, and does not increase
    as the distance grows from 0 to the warning distance. *)
Theorem intensity_law :
  intensity_of 0 = 255%Z ∧
  intensity_of config.WARNING_DISTANCE = 0%Z ∧
  ∀ d1 d2 : Q, 0 <= d1 → d1 <= d2 → d2 <= config.WARNING_DISTANCE →
    (intensity_of d2 ≤ intensity_of d1)%Z.
Proof.
  split; [reflexivity|]. split; [reflexivity|].
  intros d1 d2 _ H _. by apply intensity_of_mono.
Qed.

Lemma intensity_law_witness : (intensity_of 1.5 ≤ intensity_of 0.5)%Z.
Proof.
  apply (proj2 (proj2 intensity_law));
    unfold config.WARNING_DISTANCE, Qle; simpl; lia.
Defined.

(** ** The haptic belt *)

(** A loop whose every round only appends to the serial port. *)
Lemma for_each_writes {A} (body : A → IO unit) (out : A → list string)
    (xs : list A) (w : world) :
  (∀ x w, x ∈ xs →
     body x w = (Ok tt, World (ser w ++ out x) (scene w) (stdout w))) →
  for_each xs body w
  = (Ok tt, World (ser w ++ concat (out <$> xs)) (scene w) (stdout w)).
Proof.
  revert w. induction xs as [|x xs IH]; intros w Hbody; simpl.
  - rewrite app_nil_r. by destruct w.
  - unfold mbind, IO_bind. rewrite Hbody by left.
    rewrite IH by (intros; apply Hbody; by right). simpl. by rewrite app_assoc.
Qed.

Lemma trigger_haptic_feedback_writes (sectors : dict string (option Q)) (w : world) :
  (∀ k, k ∈ py.keys sectors → is_Some (motor_map !! k)) →
  trigger_haptic_feedback sectors w
  = (Ok tt, World (ser w ++ concat (sector_output <$> sectors)) (scene w) (stdout w)).
Proof.
  intros Hkeys. unfold trigger_haptic_feedback. apply for_each_writes.
  intros [sector distance] w' Hin. unfold sector_output. simpl.
  destruct distance as [d|]; simpl.
  - destruct (py.truthy d && py.lt d config.WARNING_DISTANCE).
    + destruct (Hkeys sector) as [m Hm].
      { apply list_elem_of_fmap. by exists (sector, Some d). }
      rewrite Hm. reflexivity.
    + rewrite app_nil_r. by destruct w'.
  - rewrite app_nil_r. by destruct w'.
Qed.

Lemma trigger_haptic_feedback_f64_writes
    (sectors : dict string (option float)) (w : world) :
  (∀ k, k ∈ py.keys sectors → is_Some (motor_map !! k)) →
  (∀ sector d, (sector, Some d) ∈ sectors →
     float64.truthy d = true → (d <? float64.WARNING_DISTANCE)%float = true →
     ∃ intensity,
       float64.int (255 * (1 - d / float64.WARNING_DISTANCE))%float = Ok intensity) →
  float64.trigger_haptic_feedback sectors w
  = (Ok tt, World (ser w ++ concat (float64.sector_output <$> sectors))
              (scene w) (stdout w)).
Proof.
  intros Hkeys Hint. unfold float64.trigger_haptic_feedback. apply for_each_writes.
  intros [sector distance] w' Hin. unfold float64.sector_output. simpl.
  destruct distance as [d|]; simpl.
  - destruct (float64.truthy d) eqn:Ht; simpl;
      [destruct (d <? float64.WARNING_DISTANCE)%float eqn:Hlt|].
    + destruct (Hkeys sector) as [m Hm].
      { apply list_elem_of_fmap. by exists (sector, Some d). }
      destruct (Hint sector d Hin Ht Hlt) as [intensity Hi].
      rewrite Hm. unfold mbind, IO_bind, lift. rewrite Hi. reflexivity.
    + rewrite app_nil_r. by destruct w'.
    + rewrite app_nil_r. by destruct w'.
  - rewrite app_nil_r. by destruct w'.
Qed.

(** C1, as the code has it: on a reading whose sectors all have a motor,
    and whose distances leave line 13 a finite product to convert,
    [trigger_haptic_feedback] raises nothing and appends to the serial port
    one group of lines per sector, in the order of the reading.  A sector
    without a distance adds nothing.  A sector whose distance is not zero
    adds one command when the distance is below the warning distance and
    nothing otherwise, and the intensity of the command is the binary64
    value of [255 * (1 - distance / WARNING_DISTANCE)] cut off toward zero
    by [int] and clamped to 0..255. *)
Theorem trigger_haptic_feedback_commands
    (sectors : dict string (option float)) (w : world) :
  (∀ k, k ∈ py.keys sectors → is_Some (motor_map !! k)) →
  (∀ sector d, (sector, Some d) ∈ sectors →
     float64.truthy d = true → (d <? float64.WARNING_DISTANCE)%float = true →
     ∃ intensity,
       float64.int (255 * (1 - d / float64.WARNING_DISTANCE))%float = Ok intensity) →
  ∃ outs : list (list string),
    float64.trigger_haptic_feedback sectors w
    = (Ok tt, World (ser w ++ concat outs) (scene w) (stdout w)) ∧
    length outs = length sectors ∧
    ∀ (i : nat) (sector : string) (distance : option float) (out : list string),
      sectors !! i = Some (sector, distance) → outs !! i = Some out →
      (distance = None → out = []) ∧
      (∀ d, distance = Some d → (d =? 0)%float = false →
         ((d <? float64.WARNING_DISTANCE)%float = true →
            ∃ motor_id intensity,
              motor_map !! sector = Some motor_id ∧
              float64.int (255 * (1 - d / float64.WARNING_DISTANCE))%float
              = Ok intensity ∧
              out = [command_line motor_id (Z.max 0 (Z.min 255 intensity))]) ∧
         ((d <? float64.WARNING_DISTANCE)%float = false → out = [])).
Proof.
  intros Hkeys Hint. exists (float64.sector_output <$> sectors). split; [|split].
  - by apply trigger_haptic_feedback_f64_writes.
  - by rewrite length_fmap.
  - intros i sector distance o Hi Ho.
    rewrite list_lookup_fmap, Hi in Ho. injection Ho as <-.
    unfold float64.sector_output. simpl.
    split; [by intros -> |].
    intros d -> Hnz.
    assert (Ht : float64.truthy d = true) by (unfold float64.truthy; by rewrite Hnz).
    rewrite Ht. simpl. split.
    + intros Hlt. rewrite Hlt.
      assert (Hin : (sector, Some d) ∈ sectors) by (by eapply list_elem_of_lookup_2).
      destruct (Hkeys sector) as [m Hm].
      { apply list_elem_of_fmap. by exists (sector, Some d). }
      destruct (Hint sector d Hin Ht Hlt) as [intensity Hint'].
      rewrite Hint', Hm. by exists m, intensity.
    + by intros ->.
Qed.

Lemma trigger_haptic_feedback_commands_witness :
  ∃ outs : list (list string),
    float64.trigger_haptic_feedback reading_near world0
    = (Ok tt, World (ser world0 ++ concat outs) (scene world0) (stdout world0)) ∧
    length outs = length reading_near ∧
    ∀ (i : nat) (sector : string) (distance : option float) (out : list string),
      reading_near !! i = Some (sector, distance) → outs !! i = Some out →
      (distance = None → out = []) ∧
      (∀ d, distance = Some d → (d =? 0)%float = false →
         ((d <? float64.WARNING_DISTANCE)%float = true →
            ∃ motor_id intensity,
              motor_map !! sector = Some motor_id ∧
              float64.int (255 * (1 - d / float64.WARNING_DISTANCE))%float
              = Ok intensity ∧
              out = [command_line motor_id (Z.max 0 (Z.min 255 intensity))]) ∧
         ((d <? float64.WARNING_DISTANCE)%float = false → out = [])).
Proof.
  apply (trigger_haptic_feedback_commands reading_near world0).
  - intros k Hk. unfold reading_near in Hk. simpl in Hk.
    repeat (apply elem_of_cons in Hk as [->|Hk]; [by eexists|]).
    by apply elem_of_nil in Hk.
  - intros sector d Hin _ _. unfold reading_near in Hin.
    apply elem_of_cons in Hin as [[= -> ->]|Hin]; [eexists; vm_compute; reflexivity|].
    apply elem_of_cons in Hin as [[=]|Hin].
    apply elem_of_cons in Hin as [[= -> ->]|Hin]; [eexists; vm_compute; reflexivity|].
    by apply elem_of_nil in Hin.
Defined.

(** C1 as the specification words it fails twice on
    [reading_touching]: sector [N] is at distance 0, which is not
    [None] and is below the warning distance, and gets no command at all
    instead of one with intensity 255; sector [NW] at distance 1.5 gets
    intensity 63, where rounding [255 * (1 - 1.5/2.0) = 63.75] gives 64. *)
Lemma trigger_haptic_feedback_counterexample :
  float64.trigger_haptic_feedback reading_touching world0
  = (Ok tt, World [command_line 2 63] [] []) ∧
  [command_line 2 63]
  ≠ [command_line 0 (computeIntensity_spec 0 config.WARNING_DISTANCE);
     command_line 2 (computeIntensity_spec 1.5 config.WARNING_DISTANCE)] ∧
  computeIntensity_spec 0 config.WARNING_DISTANCE = 255%Z ∧
  computeIntensity_spec 1.5 config.WARNING_DISTANCE = 64%Z.
Proof. by vm_compute. Qed.

(** The distance 0.4 gives intensity 204 and 1.5 gives 63. *)
Example trigger_haptic_feedback_near :
  float64.trigger_haptic_feedback reading_near world0
  = (Ok tt, World [command_line 0 204; command_line 2 63] [] []).
Proof. by vm_compute. Qed.

(** Line 13 at the float [0.4], which is [3602879701896397 / 2^53] and a
    little above 0.4: the exact product is cut off to 203, the rounded one
    to 204. *)
#[warnings="-inexact-float"]
Example line_13_rounds :
  py.int (255 * (1 - (3602879701896397 # 9007199254740992) / config.WARNING_DISTANCE))
  = 203%Z ∧
  float64.int (255 * (1 - 0.4 / float64.WARNING_DISTANCE))%float = Ok 204%Z.
Proof. by vm_compute. Qed.

(** The scenario of the specification: distance 0.5 gives intensity 191. *)
Example trigger_haptic_feedback_half_metre :
  float64.trigger_haptic_feedback [("N"%string, Some 0.5%float)] world0
  = (Ok tt, World ["0,191
"%string] [] []).
Proof. by vm_compute. Qed.

(** ** The sector mapper *)

Lemma min_elem (x : Q) (xs : list Q) : py.min x xs ∈ x :: xs.
Proof.
  revert x. induction xs as [|y xs IH]; intros x; simpl.
  - by left.
  - destruct (py.lt y x).
    + right. apply IH.
    + specialize (IH x). apply elem_of_cons in IH as [->|IH].
      * by left.
      * by do 2 right.
Qed.

Lemma min_le_first (x : Q) (xs : list Q) : py.min x xs <= x.
Proof.
  revert x. induction xs as [|y xs IH]; intros x; simpl.
  - lra.
  - destruct (py.lt y x) eqn:E.
    + apply lt_spec in E. specialize (IH y). lra.
    + apply IH.
Qed.

Lemma min_lower_bound (x : Q) (xs : list Q) (y : Q) :
  y ∈ x :: xs → py.min x xs <= y.
Proof.
  revert x. induction xs as [|x' xs IH]; intros x Hy.
  - apply list_elem_of_singleton in Hy as ->. simpl. lra.
  - simpl. apply elem_of_cons in Hy as [->|Hy].
    + destruct (py.lt x' x) eqn:E.
      * apply lt_spec in E. pose proof (min_le_first x' xs). lra.
      * apply min_le_first.
    + apply elem_of_cons in Hy as [->|Hy].
      * destruct (py.lt x' x) eqn:E.
        -- apply min_le_first.
        -- apply lt_false in E. pose proof (min_le_first x xs). lra.
      * apply IH. by right.
Qed.

(** No angle is in two bands. *)
Lemma bands_disjoint (a : Q) :
  (in_N a = true → in_NE a = false ∧ in_NW a = false) ∧
  (in_NE a = true → in_NW a = false).
Proof.
  unfold in_N, in_NE, in_NW. split.
  - intros [H1 H2]%andb_true_iff. apply le_spec in H1, H2. split.
    + apply andb_false_iff. left. by apply lt_false.
    + apply andb_false_iff. right. by apply lt_false.
  - intros [H1 H2]%andb_true_iff. apply lt_spec in H1.
    apply andb_false_iff. right. apply lt_false. lra.
Qed.

Lemma zs_where_elem (angle_of : Q → Q) (band : Q → bool)
    (obstacles : list obstacle) (z : Q) :
  z ∈ zs_where angle_of band obstacles ↔
  ∃ o, o ∈ obstacles ∧ band (angle_of (pu (centroid o))) = true
       ∧ pz (centroid o) = z.
Proof.
  unfold zs_where. rewrite list_elem_of_fmap. split.
  - intros (o & -> & Ho). apply list_elem_of_In, filter_In in Ho as [Ho Hb].
    exists o. by rewrite list_elem_of_In.
  - intros (o & Ho & Hb & <-). exists o. split; [done|].
    apply list_elem_of_In, filter_In. by rewrite <- list_elem_of_In.
Qed.

(** The closest depth of a band: nothing when no obstacle is in the band,
    else the depth of one of its obstacles that no other undercuts. *)
Lemma closest_of_band (angle_of : Q → Q) (band : Q → bool) (obstacles : list obstacle) :
  match zs_where angle_of band obstacles with
  | [] => ∀ o, o ∈ obstacles → band (angle_of (pu (centroid o))) = false
  | d :: ds =>
      (∃ o, o ∈ obstacles ∧ band (angle_of (pu (centroid o))) = true
            ∧ pz (centroid o) = py.min d ds) ∧
      ∀ o, o ∈ obstacles → band (angle_of (pu (centroid o))) = true →
           py.min d ds <= pz (centroid o)
  end.
Proof.
  destruct (zs_where angle_of band obstacles) as [|d ds] eqn:E.
  - intros o Ho. apply not_true_iff_false. intros Hb.
    assert (pz (centroid o) ∈ zs_where angle_of band obstacles) as Hin
      by (apply zs_where_elem; eauto).
    rewrite E in Hin. by apply elem_of_nil in Hin.
  - split.
    + apply zs_where_elem. rewrite E. apply min_elem.
    + intros o Ho Hb. apply min_lower_bound. rewrite <- E.
      apply zs_where_elem. eauto.
Qed.

Lemma sector_output_length (r : string * option Q) :
  (length (sector_output r) ≤ 1)%nat.
Proof.
  unfold sector_output. destruct r.2 as [d|]; [|simpl; lia].
  destruct (_ && _); simpl; lia.
Qed.


Section SectorMapper.

Variable arctan2 : Q → Q → Q.
Variable pi : Q.

Let angle_of := angle_of arctan2 pi.

(** The loop of lines 7 to 16 sorts the depths by band. *)
Lemma sort_into_sectors_from (obstacles : list obstacle) (a b c : list Q) :
  foldl (λ sectors obs,
           let '(Point u _ z) := centroid obs in
           let angle := angle_of u in
           if py.le (-15) angle && py.le angle 15 then append_to "N" z sectors
           else if py.lt 15 angle && py.le angle 45 then append_to "NE" z sectors
           else if py.le (-45) angle && py.lt angle (-15) then append_to "NW" z sectors
           else sectors)
        [("N"%string, a); ("NE"%string, b); ("NW"%string, c)] obstacles
  = [("N"%string, a ++ zs_where angle_of in_N obstacles);
     ("NE"%string, b ++ zs_where angle_of in_NE obstacles);
     ("NW"%string, c ++ zs_where angle_of in_NW obstacles)].
Proof.
  revert a b c. induction obstacles as [|o os IH]; intros a b c.
  - simpl. by rewrite !app_nil_r.
  - simpl. destruct o as [[u v z] pts]. simpl.
    unfold zs_where. simpl.
    pose proof (bands_disjoint (angle_of u)) as [HN HNE].
    fold (in_N (angle_of u)) (in_NE (angle_of u)) (in_NW (angle_of u)).
    destruct (in_N (angle_of u)) eqn:EN.
    { destruct (HN eq_refl) as [-> ->]. unfold append_to. simpl.
      rewrite IH. unfold zs_where. by rewrite <- app_assoc. }
    destruct (in_NE (angle_of u)) eqn:ENE.
    { rewrite (HNE eq_refl). unfold append_to. simpl.
      rewrite IH. unfold zs_where. by rewrite <- app_assoc. }
    destruct (in_NW (angle_of u)) eqn:ENW.
    { unfold append_to. simpl.
      rewrite IH. unfold zs_where. by rewrite <- app_assoc. }
    apply IH.
Qed.

Lemma sort_into_sectors_eq (obstacles : list obstacle) :
  sort_into_sectors arctan2 pi obstacles
  = [("N"%string, zs_where angle_of in_N obstacles);
     ("NE"%string, zs_where angle_of in_NE obstacles);
     ("NW"%string, zs_where angle_of in_NW obstacles)].
Proof. apply (sort_into_sectors_from obstacles [] [] []). Qed.

(** C4: the reading has the keys [N], [NE], [NW]; with [theta] the angle
    of line 10 in degrees, an obstacle counts for [N] when [theta] is in
    [[-15, 15]], for [NE] when in [(15, 45]], for [NW] when in
    [[-45, -15)], never for two sectors, and for none when [theta] is
    outside [[-45, 45]]; the value of a sector is [None] when no
    obstacle counts for it and otherwise the depth of one of its
    obstacles that is at most the depth of each of them. *)
Theorem map_obstacles_to_sectors_spec (obstacles : list obstacle) :
  let theta (o : obstacle) :=
    arctan2 (pu (centroid o) - config.FRAME_WIDTH / 2) config.FOCAL_LENGTH
    * 180 / pi in
  let assigned (sector : string) (o : obstacle) : Prop :=
    sector = "N"%string ∧ -15 <= theta o ∧ theta o <= 15 ∨
    sector = "NE"%string ∧ 15 < theta o ∧ theta o <= 45 ∨
    sector = "NW"%string ∧ -45 <= theta o ∧ theta o < -15 in
  let closest := map_obstacles_to_sectors arctan2 pi obstacles in
  py.keys closest = config.SECTORS ∧
  (∀ o s1 s2, assigned s1 o → assigned s2 o → s1 = s2) ∧
  (∀ o, theta o < -45 ∨ 45 < theta o → ∀ s, ¬ assigned s o) ∧
  ∀ sector, sector ∈ config.SECTORS →
    ∃ value, py.get closest sector = Some value ∧
      match value with
      | None => ∀ o, o ∈ obstacles → ¬ assigned sector o
      | Some m =>
          (∃ o, o ∈ obstacles ∧ assigned sector o ∧ pz (centroid o) = m) ∧
          ∀ o, o ∈ obstacles → assigned sector o → m <= pz (centroid o)
      end.
Proof.
  intros theta assigned closest.
  assert (Hclosest : closest = map_obstacles_to_sectors arctan2 pi obstacles) by done.
  unfold map_obstacles_to_sectors in Hclosest.
  rewrite sort_into_sectors_eq in Hclosest. simpl in Hclosest.
  split; [by rewrite Hclosest|].
  split.
  { intros o s1 s2 H1 H2. unfold assigned in *.
    destruct H1 as [(-> & ? & ?)|[(-> & ? & ?)|(-> & ? & ?)]];
    destruct H2 as [(-> & ? & ?)|[(-> & ? & ?)|(-> & ? & ?)]];
      try done; lra. }
  split.
  { intros o Hout s Hs. unfold assigned in Hs.
    destruct Hs as [(-> & ? & ?)|[(-> & ? & ?)|(-> & ? & ?)]]; lra. }
  assert (HN : ∀ o, in_N (theta o) = true ↔ assigned "N"%string o).
  { intros o. unfold in_N, assigned. rewrite andb_true_iff, !le_spec.
    split; [intros [? ?]; by left|].
    by intros [(_ & ? & ?)|[(? & _)|(? & _)]]. }
  assert (HNE : ∀ o, in_NE (theta o) = true ↔ assigned "NE"%string o).
  { intros o. unfold in_NE, assigned. rewrite andb_true_iff, lt_spec, le_spec.
    split; [intros [? ?]; right; by left|].
    by intros [(? & _)|[(_ & ? & ?)|(? & _)]]. }
  assert (HNW : ∀ o, in_NW (theta o) = true ↔ assigned "NW"%string o).
  { intros o. unfold in_NW, assigned. rewrite andb_true_iff, lt_spec, le_spec.
    split; [intros [? ?]; right; by right|].
    by intros [(? & _)|[(? & _)|(_ & ? & ?)]]. }
  intros sector Hsector. unfold config.SECTORS in Hsector.
  assert (Hband : ∀ band s,
    (∀ o, band (theta o) = true ↔ assigned s o) →
    match match zs_where angle_of band obstacles with
          | [] => None
          | d :: ds => Some (py.min d ds)
          end with
    | None => ∀ o, o ∈ obstacles → ¬ assigned s o
    | Some m =>
        (∃ o, o ∈ obstacles ∧ assigned s o ∧ pz (centroid o) = m) ∧
        ∀ o, o ∈ obstacles → assigned s o → m <= pz (centroid o)
    end).
  { intros band s Hs. pose proof (closest_of_band angle_of band obstacles) as H.
    destruct (zs_where angle_of band obstacles) as [|d ds].
    - intros o Ho Ha. apply Hs in Ha. specialize (H o Ho).
      change (angle_of (pu (centroid o))) with (theta o) in H.
      congruence.
    - destruct H as [(o & Ho & Hb & Hz) Hmin]. split.
      + exists o. split; [done|]. split; [by apply Hs|done].
      + intros o' Ho' Ha. apply Hmin; [done|]. by apply Hs. }
  rewrite Hclosest.
  apply elem_of_cons in Hsector as [->|Hsector];
    [eexists; split; [reflexivity|by apply Hband]|].
  apply elem_of_cons in Hsector as [->|Hsector];
    [eexists; split; [reflexivity|by apply Hband]|].
  apply elem_of_cons in Hsector as [->|Hsector];
    [eexists; split; [reflexivity|by apply Hband]|].
  by apply elem_of_nil in Hsector.
Qed.


End SectorMapper.

(** ** Arrays and the ground plane *)

Lemma item_map {A B} (f : A → B) (a : list (list A)) (v u : nat) :
  np.item (np.map f a) v u = f <$> np.item a v u.
Proof.
  unfold np.item, np.map. rewrite list_lookup_fmap.
  destruct (a !! v) as [row|]; simpl; [|done]. apply list_lookup_fmap.
Qed.

Lemma item_map2 {A B C} (f : A → B → C) (a : list (list A)) (b : list (list B)) (v u : nat) :
  np.item (np.map2 f a b) v u
  = x ← np.item a v u; y ← np.item b v u; Some (f x y).
Proof.
  unfold np.item, np.map2. rewrite lookup_zip_with.
  destruct (a !! v) as [ra|]; simpl; [|done].
  destruct (b !! v) as [rb|]; simpl.
  - apply lookup_zip_with.
  - by destruct (ra !! u).
Qed.

Lemma lookup_arange (n i : nat) :
  np.arange n !! i = if bool_decide (i < n)%nat then Some (np.of_nat i) else None.
Proof.
  unfold np.arange. rewrite list_lookup_fmap. case_bool_decide.
  - by rewrite lookup_seq_lt.
  - by rewrite lookup_seq_ge by lia.
Qed.

Lemma item_meshgrid_rows (xs ys : list Q) (v u : nat) :
  np.item (np.meshgrid xs ys).2 v u = y ← ys !! v; _ ← xs !! u; Some y.
Proof.
  unfold np.item, np.meshgrid. simpl. rewrite list_lookup_fmap.
  destruct (ys !! v) as [y|]; simpl; [|done].
  rewrite list_lookup_fmap. by destruct (xs !! u).
Qed.

Lemma item_heights_of (depth_map : list (list Q)) (v u : nat) :
  np.item (heights_of depth_map) v u
  = if bool_decide (u < length (hd [] depth_map))%nat
    then height_at (length depth_map) v <$> np.item depth_map v u
    else None.
Proof.
  unfold heights_of, np.shape.
  destruct (np.meshgrid _ _) as [ug vg] eqn:E.
  assert (Hvg : vg = (np.meshgrid (np.arange (length (hd [] depth_map)))
                                  (np.arange (length depth_map))).2)
    by (by rewrite E).
  unfold np.sub_scalar at 1, np.neg, np.div_scalar at 1, np.mul at 1.
  rewrite !item_map, item_map2. unfold np.sub_scalar. rewrite item_map, Hvg.
  rewrite item_meshgrid_rows, !lookup_arange.
  case_bool_decide as Hu.
  - case_bool_decide as Hv; simpl.
    + by destruct (np.item depth_map v u).
    + assert (depth_map !! v = None) as Hnone by (apply lookup_ge_None; lia).
      unfold np.item. by rewrite Hnone.
  - by case_bool_decide.
Qed.

Lemma item_estimate_ground_plane (depth_map : list (list Q)) (v u : nat) :
  np.item (estimate_ground_plane depth_map) v u
  = if bool_decide (u < length (hd [] depth_map))%nat
    then (λ z, py.lt (Qabs (height_at (length depth_map) v z)) GROUND_TOLERANCE)
           <$> np.item depth_map v u
    else None.
Proof.
  unfold estimate_ground_plane, np.lt_scalar, np.abs.
  rewrite !item_map, item_heights_of. case_bool_decide; [|done].
  by destruct (np.item depth_map v u).
Qed.

Lemma rectangular_width {A} (a : list (list A)) (v u : nat) (x : A) :
  np.rectangular a → np.item a v u = Some x → (u < length (hd [] a))%nat.
Proof.
  intros Hrect Hitem. unfold np.item in Hitem.
  destruct (a !! v) as [row|] eqn:Hrow; [|done]. simpl in Hitem.
  rewrite <- (Hrect row) by (by eapply list_elem_of_lookup_2).
  by eapply lookup_lt_Some.
Qed.

(** C7: a pixel whose height, [-y - GROUND_HEIGHT_THRESHOLD] with [y] from
    the pinhole model of line 11, is exactly 0 is marked as ground; the
    tolerance 0.1 is positive. *)
Theorem ground_at_height_zero (depth_map : list (list Q)) (v u : nat) (z : Q) :
  np.rectangular depth_map →
  np.item depth_map v u = Some z →
  (let height := np.of_nat (length depth_map) in
   let y := (np.of_nat v - height / 2) * z / config.FOCAL_LENGTH in
   - y - config.GROUND_HEIGHT_THRESHOLD == 0) →
  0 < GROUND_TOLERANCE ∧
  np.item (estimate_ground_plane depth_map) v u = Some true.
Proof.
  intros Hrect Hz Hzero. split; [done|].
  rewrite item_estimate_ground_plane, Hz.
  rewrite bool_decide_true by (by eapply rectangular_width).
  cbn [fmap option_fmap option_map]. f_equal. apply lt_spec.
  unfold height_at. cbv zeta in Hzero. rewrite Hzero. done.
Qed.

Lemma ground_at_height_zero_witness :
  0 < GROUND_TOLERANCE ∧
  np.item (estimate_ground_plane ground_pixel_depth) 0 0 = Some true.
Proof.
  apply (ground_at_height_zero ground_pixel_depth 0 0 1260).
  - intros row ->%list_elem_of_singleton. reflexivity.
  - reflexivity.
  - vm_compute. reflexivity.
Defined.

(** C8: two depth maps of the same shape that agree at a pixel get the
    same ground classification at that pixel, whatever they hold
    elsewhere. *)
Theorem ground_mask_pixelwise (d1 d2 : list (list Q)) (v u : nat) :
  np.shape d1 = np.shape d2 →
  np.item d1 v u = np.item d2 v u →
  np.item (estimate_ground_plane d1) v u = np.item (estimate_ground_plane d2) v u.
Proof.
  unfold np.shape. intros [= Hrows Hcols] Hitem.
  by rewrite !item_estimate_ground_plane, Hrows, Hcols, Hitem.
Qed.

Lemma ground_mask_pixelwise_witness :
  np.item (estimate_ground_plane [[1; 2]]) 0 0
  = np.item (estimate_ground_plane [[1; 3]]) 0 0.
Proof.
  apply (ground_mask_pixelwise [[1; 2]] [[1; 3]] 0 0); reflexivity.
Defined.

Lemma zero_depth_not_ground_item (depth_map : list (list Q)) (v u : nat) (z : Q) :
  np.rectangular depth_map →
  np.item depth_map v u = Some z → z == 0 →
  np.item (estimate_ground_plane depth_map) v u = Some false.
Proof.
  intros Hrect Hz Hzero.
  rewrite item_estimate_ground_plane, Hz.
  rewrite bool_decide_true by (by eapply rectangular_width).
  cbn [fmap option_fmap option_map]. f_equal. apply lt_false.
  unfold height_at. rewrite Hzero.
  unfold config.GROUND_HEIGHT_THRESHOLD, config.FOCAL_LENGTH, GROUND_TOLERANCE.
  match goal with |- _ <= Qabs ?x => assert (E : x == - (12 # 10)) by field end.
  rewrite E. done.
Qed.

(** ** The point cloud *)

Lemma vstack_T_app (u1 u2 v1 v2 : list nat) (z1 z2 : list Q) :
  length u1 = length v1 → length u1 = length z1 →
  vstack_T (u1 ++ u2) (v1 ++ v2) (z1 ++ z2)
  = vstack_T u1 v1 z1 ++ vstack_T u2 v2 z2.
Proof.
  revert v1 z1. induction u1 as [|a u1 IH]; intros [|b v1] [|c z1]; simpl; try done.
  intros [= Hv] [= Hz]. f_equal. by apply IH.
Qed.

Lemma length_true_columns_select {A} (row : list A) (mrow : list bool) (u0 : nat) :
  length row = length mrow →
  length (np.true_columns mrow u0) = length (np.select row mrow).
Proof.
  revert mrow u0. induction row as [|x row IH]; intros [|b mrow] u0; simpl; try done.
  intros [= H]. rewrite !length_app, (IH mrow (S u0) H). by destruct b.
Qed.

(** The points one row contributes. *)
Lemma row_point_elem (row : list Q) (mrow : list bool) (u0 j v : nat) (z : Q) :
  row !! j = Some z → mrow !! j = Some true →
  Point (np.of_nat (u0 + j)) (np.of_nat v) z
  ∈ vstack_T (np.true_columns mrow u0) ((λ _, v) <$> np.true_columns mrow u0)
      (np.select row mrow).
Proof.
  revert mrow u0 j. induction row as [|x row IH]; intros [|b mrow] u0 j; try done.
  destruct j as [|j]; simpl.
  - intros [= ->] [= ->]. simpl. rewrite Nat.add_0_r. by left.
  - intros Hz Hb. replace (u0 + S j)%nat with (S u0 + j)%nat by lia.
    destruct b; simpl; [right|]; by apply (IH mrow (S u0) j).
Qed.

Lemma cloud_point_elem (a : list (list Q)) (m : list (list bool)) (v0 i j : nat)
    (row : list Q) (mrow : list bool) (z : Q) :
  Forall2 (λ r mr, length r = length mr) a m →
  a !! i = Some row → m !! i = Some mrow →
  row !! j = Some z → mrow !! j = Some true →
  Point (np.of_nat j) (np.of_nat (v0 + i)) z
  ∈ vstack_T (np.where_from m v0).2 (np.where_from m v0).1
      (concat (zip_with np.select a m)).
Proof.
  intros Hlen. revert v0 i. induction Hlen as [|r mr a m Hr Hlen IH]; intros v0 i; [done|].
  simpl. destruct (np.where_from m (S v0)) as [vs us] eqn:E. simpl.
  rewrite vstack_T_app;
    [|by rewrite length_fmap|by apply length_true_columns_select].
  destruct i as [|i]; simpl.
  - intros [= ->] [= ->] Hz Hb. apply elem_of_app. left.
    rewrite Nat.add_0_r. by apply (row_point_elem row mrow 0 j v0 z).
  - intros Ha Hm Hz Hb. apply elem_of_app. right.
    replace (v0 + S i)%nat with (S v0 + i)%nat by lia.
    specialize (IH (S v0) i Ha Hm Hz Hb). by rewrite E in IH.
Qed.

Lemma length_estimate_ground_plane (depth_map : list (list Q)) :
  length (estimate_ground_plane depth_map) = length depth_map.
Proof.
  unfold estimate_ground_plane, heights_of, np.shape, np.lt_scalar, np.abs,
    np.sub_scalar, np.neg, np.div_scalar, np.mul, np.map, np.map2, np.meshgrid,
    np.arange.
  rewrite !length_fmap, length_zip_with, !length_fmap, length_seq. lia.
Qed.

Lemma same_length_lookup {A B} (l : list A) (k : list B) :
  (∀ i, is_Some (l !! i) ↔ is_Some (k !! i)) → length l = length k.
Proof.
  intros H.
  pose proof (H (length l)) as H1. pose proof (H (length k)) as H2.
  rewrite !lookup_lt_is_Some in H1, H2. lia.
Qed.

Lemma row_length_estimate_ground_plane (depth_map : list (list Q)) (v : nat)
    (row : list Q) (mrow : list bool) :
  np.rectangular depth_map →
  depth_map !! v = Some row → estimate_ground_plane depth_map !! v = Some mrow →
  length row = length mrow.
Proof.
  intros Hrect Hrow Hmrow. apply same_length_lookup. intros u.
  pose proof (item_estimate_ground_plane depth_map v u) as H.
  unfold np.item in H. rewrite Hrow, Hmrow in H. simpl in H. rewrite H.
  case_bool_decide as Hu.
  - by rewrite fmap_is_Some.
  - split; [|by intros [? ?]]. intros [z Hz]. exfalso. apply Hu.
    apply (rectangular_width depth_map v u z Hrect).
    unfold np.item. by rewrite Hrow.
Qed.

Lemma hd_lookup {A} (a : list (list A)) : hd [] a = default [] (a !! 0%nat).
Proof. by destruct a. Qed.

Lemma shape_estimate_ground_plane (depth_map : list (list Q)) :
  np.rectangular depth_map →
  np.shape (estimate_ground_plane depth_map) = np.shape depth_map.
Proof.
  intros Hrect. unfold np.shape. rewrite length_estimate_ground_plane. f_equal.
  rewrite !hd_lookup.
  destruct (depth_map !! 0%nat) as [row|] eqn:Hrow.
  - destruct (estimate_ground_plane depth_map !! 0%nat) as [mrow|] eqn:Hmrow.
    + simpl. symmetry. by eapply row_length_estimate_ground_plane.
    + apply lookup_ge_None in Hmrow. apply lookup_lt_Some in Hrow.
      rewrite length_estimate_ground_plane in Hmrow. lia.
  - destruct (estimate_ground_plane depth_map !! 0%nat) as [mrow|] eqn:Hmrow; [|done].
    apply lookup_ge_None in Hrow. apply lookup_lt_Some in Hmrow.
    rewrite length_estimate_ground_plane in Hmrow. lia.
Qed.

Lemma shape_map {A B} (f : A → B) (a : list (list A)) :
  np.shape (np.map f a) = np.shape a.
Proof.
  unfold np.shape, np.map. rewrite length_fmap. f_equal.
  destruct a; simpl; [done|]. by rewrite length_fmap.
Qed.

(** C9: a pixel of depth 0 has height [-1.2], so it is not ground, and
    its point [(u, v, 0)] is in the point cloud that [segment_obstacles]
    hands to the clusterer. *)
Theorem zero_depth_is_obstacle_point (depth_map : list (list Q)) (v u : nat) (z : Q) :
  np.rectangular depth_map →
  np.item depth_map v u = Some z → z == 0 →
  np.item (estimate_ground_plane depth_map) v u = Some false ∧
  ∃ cloud : list point,
    point_cloud depth_map (estimate_ground_plane depth_map) = Ok cloud ∧
    Point (np.of_nat u) (np.of_nat v) z ∈ cloud.
Proof.
  intros Hrect Hz Hzero.
  pose proof (zero_depth_not_ground_item depth_map v u z Hrect Hz Hzero) as Hmask.
  split; [done|].
  unfold point_cloud, np.where_, np.getitem_mask.
  destruct (np.where_from _ 0) as [vs us] eqn:E.
  unfold np.invert. rewrite shape_map, shape_estimate_ground_plane by done.
  rewrite bool_decide_true by done. simpl.
  eexists. split; [reflexivity|].
  unfold np.item in Hz, Hmask.
  destruct (depth_map !! v) as [row|] eqn:Hrow; [|done].
  destruct (estimate_ground_plane depth_map !! v) as [mrow|] eqn:Hmrow; [|done].
  simpl in Hz, Hmask.
  pose proof (cloud_point_elem depth_map (np.invert (estimate_ground_plane depth_map))
                0 v u row (negb <$> mrow) z) as H.
  rewrite E in H. apply H; try done.
  - apply Forall2_same_length_lookup. split.
    + unfold np.invert, np.map. by rewrite length_fmap, length_estimate_ground_plane.
    + intros i r mr Hr Hmr. unfold np.invert, np.map in Hmr.
      rewrite list_lookup_fmap in Hmr.
      destruct (estimate_ground_plane depth_map !! i) as [mr'|] eqn:Hmr'; [|done].
      injection Hmr as <-. rewrite length_fmap.
      by eapply row_length_estimate_ground_plane.
  - unfold np.invert, np.map. by rewrite list_lookup_fmap, Hmrow.
  - by rewrite list_lookup_fmap, Hmask.
Qed.

Lemma zero_depth_is_obstacle_point_witness :
  np.item (estimate_ground_plane [[0; 1]]) 0 0 = Some false ∧
  ∃ cloud : list point,
    point_cloud [[0; 1]] (estimate_ground_plane [[0; 1]]) = Ok cloud ∧
    Point (np.of_nat 0) (np.of_nat 0) 0 ∈ cloud.
Proof.
  apply (zero_depth_is_obstacle_point [[0; 1]] 0 0 0).
  - intros row ->%list_elem_of_singleton. reflexivity.
  - reflexivity.
  - reflexivity.
Defined.

(** ** Segmentation when everything is ground *)

Lemma true_columns_none (mrow : list bool) (u0 : nat) :
  (∀ b, b ∈ mrow → b = false) → np.true_columns mrow u0 = [].
Proof.
  revert u0. induction mrow as [|b mrow IH]; intros u0 H; [done|]. simpl.
  rewrite (H b) by left. simpl. apply IH. intros b' Hb'. apply H. by right.
Qed.

Lemma where_from_none (mask : list (list bool)) (v0 : nat) :
  (∀ mrow b, mrow ∈ mask → b ∈ mrow → b = false) → np.where_from mask v0 = ([], []).
Proof.
  revert v0. induction mask as [|mrow mask IH]; intros v0 H; [done|]. simpl.
  rewrite IH by (intros mr b Hmr; apply H; by right).
  rewrite true_columns_none by (intros b; apply H; by left). done.
Qed.

Lemma point_cloud_all_ground (depth_map : list (list Q)) (ground_mask : list (list bool)) :
  np.shape depth_map = np.shape ground_mask →
  (∀ mrow b, mrow ∈ ground_mask → b ∈ mrow → b = true) →
  point_cloud depth_map ground_mask = Ok [].
Proof.
  intros Hshape Hall. unfold point_cloud, np.where_.
  rewrite where_from_none.
  - unfold np.getitem_mask, np.invert. rewrite shape_map.
    by rewrite bool_decide_true.
  - intros mrow b Hmrow Hb. unfold np.invert, np.map in Hmrow.
    apply list_elem_of_fmap in Hmrow as (mrow' & -> & Hmrow').
    apply list_elem_of_fmap in Hb as (b' & -> & Hb').
    by rewrite (Hall mrow' b').
Qed.

(** C2, as the code has it: when the mask marks every pixel as ground the
    point cloud is empty, [DBSCAN.fit] rejects it, and [segment_obstacles]
    raises [ValueError] instead of returning an empty list. *)
Theorem segment_obstacles_all_ground (depth_map : list (list Q)) (ground_mask : list (list bool)) :
  np.shape depth_map = np.shape ground_mask →
  (∀ mrow b, mrow ∈ ground_mask → b ∈ mrow → b = true) →
  segment_obstacles depth_map ground_mask
  = Raise (ValueError
      "Found array with 0 sample(s) (shape=(0, 3)) while a minimum of 1 is required by DBSCAN.").
Proof.
  intros Hshape Hall. unfold segment_obstacles.
  by rewrite point_cloud_all_ground.
Qed.


Lemma segment_obstacles_all_ground_witness :
  estimate_ground_plane ground_pixel_depth = [[true]] ∧
  segment_obstacles ground_pixel_depth (estimate_ground_plane ground_pixel_depth)
  = Raise (ValueError
      "Found array with 0 sample(s) (shape=(0, 3)) while a minimum of 1 is required by DBSCAN.").
Proof.
  split; [by vm_compute|].
  apply (segment_obstacles_all_ground ground_pixel_depth
           (estimate_ground_plane ground_pixel_depth)).
  - by vm_compute.
  - intros mrow b Hmrow Hb.
    change (estimate_ground_plane ground_pixel_depth) with [[true]] in Hmrow.
    apply list_elem_of_singleton in Hmrow as ->.
    by apply list_elem_of_singleton in Hb as ->.
Defined.

(** ** The labels of [DBSCAN] *)

Lemma expand_length (fuel : nat) is_core nbhds label_num i stack (labels : list Z) :
  length (sklearn.expand fuel is_core nbhds label_num i stack labels) = length labels.
Proof.
  revert i stack labels. induction fuel as [|fuel IH]; intros i stack labels; [done|].
  simpl. destruct (sklearn.unlabelled labels i).
  - destruct (if default false (is_core !! i) then _ else _) as [|j st].
    + by rewrite length_insert.
    + by rewrite IH, length_insert.
  - destruct stack as [|j st]; [done|]. apply IH.
Qed.

Lemma visit_length fuel is_core nbhds (state : list Z * Z) (i : nat) :
  length (sklearn.visit fuel is_core nbhds state i).1 = length state.1.
Proof.
  destruct state as [labels num]. unfold sklearn.visit.
  destruct (_ || _); [done|]. apply expand_length.
Qed.

Lemma foldl_visit_length fuel is_core nbhds (todo : list nat) (state : list Z * Z) :
  length (foldl (sklearn.visit fuel is_core nbhds) state todo).1 = length state.1.
Proof.
  revert state. induction todo as [|i todo IH]; intros state; [done|].
  cbn [foldl]. by rewrite IH, visit_length.
Qed.

Lemma dbscan_inner_length is_core nbhds (labels : list Z) :
  length (sklearn.dbscan_inner is_core nbhds labels) = length labels.
Proof. unfold sklearn.dbscan_inner. by rewrite foldl_visit_length. Qed.

Lemma DBSCAN_fit_length eps min_samples (X : list point) (labels : list Z) :
  sklearn.DBSCAN_fit eps min_samples X = Ok labels → length labels = length X.
Proof.
  unfold sklearn.DBSCAN_fit. destruct X as [|p X]; [done|].
  intros [= <-]. rewrite dbscan_inner_length. simpl. f_equal. apply length_fmap.
Qed.


Lemma unlabelled_spec (labels : list Z) (i : nat) :
  sklearn.unlabelled labels i = true ↔ labels !! i = Some (-1)%Z.
Proof. unfold sklearn.unlabelled. apply bool_decide_eq_true. Qed.

Section Expand.
Variable is_core : list bool.
Variable nbhds : list (list nat).
Variable label_num : Z.

(** A search never touches a sample that has a label. *)
Lemma expand_keeps (fuel : nat) (i : nat) (stack : list nat) (labels : list Z)
    (j : nat) (l : Z) :
  labels !! j = Some l → l ≠ (-1)%Z →
  sklearn.expand fuel is_core nbhds label_num i stack labels !! j = Some l.
Proof.
  revert i stack labels. induction fuel as [|fuel IH]; intros i stack labels Hj Hl; [done|].
  cbn [sklearn.expand].
  destruct (sklearn.unlabelled labels i) eqn:Hi.
  - apply unlabelled_spec in Hi.
    assert (i ≠ j) as Hne by (intros ->; congruence).
    assert (<[i:=label_num]> labels !! j = Some l) as Hj'
      by (by rewrite list_lookup_insert_ne).
    destruct (if default false (is_core !! i) then _ else _) as [|k st]; [done|].
    by apply IH.
  - destruct stack as [|k st]; [done|]. by apply IH.
Qed.

(** What a search leaves in a place was there before or is its label. *)
Lemma expand_new (fuel : nat) (i : nat) (stack : list nat) (labels : list Z)
    (j : nat) (l : Z) :
  sklearn.expand fuel is_core nbhds label_num i stack labels !! j = Some l →
  labels !! j = Some l ∨ l = label_num.
Proof.
  revert i stack labels. induction fuel as [|fuel IH]; intros i stack labels; [by left|].
  cbn [sklearn.expand].
  assert (Hins : <[i:=label_num]> labels !! j = Some l →
                 labels !! j = Some l ∨ l = label_num).
  { destruct (decide (i = j)) as [->|Hne].
    - intros H. right. apply list_lookup_insert_Some in H as [(_ & -> & _)|[? _]]; done.
    - rewrite list_lookup_insert_ne by done. by left. }
  destruct (sklearn.unlabelled labels i) eqn:Hi.
  - destruct (if default false (is_core !! i) then _ else _) as [|k st]; [done|].
    intros [H| ->]%IH; [by apply Hins|by right].
  - destruct stack as [|k st]; [by left|]. apply IH.
Qed.

(** The sample a search starts from gets the label. *)
Lemma expand_seed (fuel : nat) (i : nat) (stack : list nat) (labels : list Z) :
  (0 ≤ label_num)%Z →
  sklearn.unlabelled labels i = true →
  sklearn.expand (S fuel) is_core nbhds label_num i stack labels !! i = Some label_num.
Proof.
  intros Hnum Hi. cbn [sklearn.expand]. rewrite Hi.
  apply unlabelled_spec in Hi.
  assert (<[i:=label_num]> labels !! i = Some label_num) as H.
  { apply list_lookup_insert_eq. by eapply lookup_lt_Some. }
  destruct (if default false (is_core !! i) then _ else _) as [|k st]; [done|].
  apply expand_keeps; [done|lia].
Qed.
End Expand.

Lemma visit_clusters_have_cores fuel is_core nbhds (state : list Z * Z) (i : nat) :
  clusters_have_cores is_core state →
  clusters_have_cores is_core (sklearn.visit (S fuel) is_core nbhds state i).
Proof.
  destruct state as [labels num]. intros [Hnum Hinv]. simpl in Hnum, Hinv.
  unfold sklearn.visit.
  destruct (sklearn.unlabelled labels i) eqn:Hi; [|by split].
  destruct (is_core !! i) as [[|]|] eqn:Hcore; try by split.
  cbn -[sklearn.expand]. split; [cbn -[sklearn.expand]; lia|]. cbn -[sklearn.expand].
  intros j l Hj.
  apply expand_new in Hj as [Hj| ->].
  - destruct (Hinv j l Hj) as [->|[Hl (i0 & Hi0 & Hc0)]]; [by left|right].
    split; [lia|]. exists i0. split; [|done]. apply expand_keeps; [done|lia].
  - right. split; [lia|]. exists i. split; [|done]. by apply expand_seed.
Qed.

Lemma foldl_visit_clusters_have_cores fuel is_core nbhds (todo : list nat)
    (state : list Z * Z) :
  clusters_have_cores is_core state →
  clusters_have_cores is_core (foldl (sklearn.visit (S fuel) is_core nbhds) state todo).
Proof.
  revert state. induction todo as [|i todo IH]; intros state Hinv; [done|].
  cbn [foldl]. by apply IH, visit_clusters_have_cores.
Qed.

Lemma dbscan_inner_core is_core nbhds (labels : list Z) (j : nat) (l : Z) :
  (∀ l, l ∈ labels → l = (-1)%Z) →
  sklearn.dbscan_inner is_core nbhds labels !! j = Some l → l ≠ (-1)%Z →
  ∃ i, sklearn.dbscan_inner is_core nbhds labels !! i = Some l
       ∧ is_core !! i = Some true.
Proof.
  intros Hinit Hj Hl. unfold sklearn.dbscan_inner in *.
  destruct (foldl_visit_clusters_have_cores (length labels * S (length labels))
              is_core nbhds (seq 0 (length labels)) (labels, 0%Z)) as [_ Hinv].
  - split; [done|]. intros k l' Hk. left. apply Hinit. by eapply list_elem_of_lookup_2.
  - destruct (Hinv j l Hj) as [->|[_ H]]; done.
Qed.

(** A core sample has [min_samples] samples within [eps] of it. *)
Lemma neighbors_from_spec (eps : Q) (p : point) (X : list point) (j0 : nat) :
  NoDup (sklearn.neighbors_from eps p X j0) ∧
  ∀ j, j ∈ sklearn.neighbors_from eps p X j0 ↔
       (j0 ≤ j)%nat ∧ ∃ q, X !! (j - j0)%nat = Some q ∧ sklearn.sqdist p q <= eps * eps.
Proof.
  revert j0. induction X as [|q X IH]; intros j0.
  - split; [constructor|]. intros j. split; [by intros ?%elem_of_nil|by intros (_ & ? & ? & _)].
  - destruct (IH (S j0)) as [Hnd Hmem]. cbn [sklearn.neighbors_from].
    assert (Hrest : ∀ j, j ∈ sklearn.neighbors_from eps p X (S j0) ↔
       (j0 < j)%nat ∧ ∃ q', (q :: X) !! (j - j0)%nat = Some q' ∧ sklearn.sqdist p q' <= eps * eps).
    { intros j. rewrite Hmem. split.
      - intros (Hle & q' & Hq' & Hd). split; [lia|]. exists q'. split; [|done].
        replace (j - j0)%nat with (S (j - S j0)) by lia. done.
      - intros (Hlt & q' & Hq' & Hd). split; [lia|]. exists q'. split; [|done].
        replace (j - j0)%nat with (S (j - S j0)) in Hq' by lia. done. }
    destruct (py.le (sklearn.sqdist p q) (eps * eps)) eqn:E.
    + split.
      * simpl. constructor; [|done]. rewrite Hrest. lia.
      * intros j. simpl. rewrite elem_of_cons, Hrest. split.
        -- intros [->|(Hlt & H)].
           ++ split; [lia|]. exists q. rewrite Nat.sub_diag. split; [done|by apply le_spec].
           ++ split; [lia|done].
        -- intros (Hle & q' & Hq' & Hd).
           destruct (decide (j = j0)) as [->|Hne]; [by left|right].
           split; [lia|]. by exists q'.
    + split; [done|]. intros j. simpl. rewrite Hrest. split.
      * intros (Hlt & H). split; [lia|done].
      * intros (Hle & q' & Hq' & Hd).
        destruct (decide (j = j0)) as [->|Hne].
        -- rewrite Nat.sub_diag in Hq'. injection Hq' as <-.
           apply le_spec in Hd. congruence.
        -- split; [lia|]. by exists q'.
Qed.

Lemma core_sample_dense (eps : Q) (min_samples : nat) (X : list point) (i : nat) :
  sklearn.core_samples min_samples (sklearn.neighborhoods eps X) !! i = Some true →
  ∃ (p : point) (js : list nat),
    X !! i = Some p ∧ NoDup js ∧ (min_samples ≤ length js)%nat ∧
    ∀ j, j ∈ js → ∃ q, X !! j = Some q ∧ sklearn.sqdist p q <= eps * eps.
Proof.
  unfold sklearn.core_samples, sklearn.neighborhoods.
  rewrite !list_lookup_fmap. destruct (X !! i) as [p|]; [|done]. simpl.
  intros [= H]. apply bool_decide_eq_true in H.
  destruct (neighbors_from_spec eps p X 0) as [Hnd Hmem].
  exists p, (sklearn.neighbors_from eps p X 0). do 3 (split; [done|]).
  intros j (_ & q & Hq & Hd)%Hmem. rewrite Nat.sub_0_r in Hq. by exists q.
Qed.

(** ** The fuel of the search *)

Lemma unlabelled_count_le (labels : list Z) : (unlabelled_count labels ≤ length labels)%nat.
Proof. apply length_filter. Qed.

Lemma unlabelled_count_insert (labels : list Z) (i : nat) (num : Z) :
  labels !! i = Some (-1)%Z → num ≠ (-1)%Z →
  S (unlabelled_count (<[i:=num]> labels)) = unlabelled_count labels.
Proof.
  unfold unlabelled_count. revert i. induction labels as [|l labels IH]; intros i Hi Hnum;
    [by rewrite lookup_nil in Hi|].
  destruct i as [|i]; simpl in *.
  - injection Hi as ->. rewrite (filter_cons_False _ num) by done.
    by rewrite (filter_cons_True _ (-1)%Z) by done.
  - rewrite !filter_cons. destruct (decide (l = (-1)%Z)); simpl; by rewrite IH.
Qed.

Lemma length_push_unlabelled (labels : list Z) (neighb stack : list nat) :
  (length (sklearn.push_unlabelled labels neighb stack) ≤ length stack + length neighb)%nat.
Proof.
  unfold sklearn.push_unlabelled. revert stack.
  induction neighb as [|v neighb IH]; intros stack; simpl; [lia|].
  etransitivity; [apply IH|]. destruct (sklearn.unlabelled labels v); simpl; lia.
Qed.

Section Fuel.
Variable is_core : list bool.
Variable nbhds : list (list nat).
Variable n : nat.
Hypothesis nbhds_small : ∀ nb, nb ∈ nbhds → (length nb ≤ n)%nat.

(** Fuel above [unlabelled * (n + 1) + stack] is never used up: more of
    it changes nothing. *)
Lemma expand_fuel_enough (label_num : Z) (fuel k : nat) (i : nat) (stack : list nat)
    (labels : list Z) :
  (0 ≤ label_num)%Z →
  (unlabelled_count labels * S n + length stack < fuel)%nat →
  sklearn.expand (fuel + k) is_core nbhds label_num i stack labels
  = sklearn.expand fuel is_core nbhds label_num i stack labels.
Proof.
  intros Hnum. revert i stack labels.
  induction fuel as [|fuel IH]; intros i stack labels Hfuel; [lia|].
  cbn [sklearn.expand Nat.add].
  destruct (sklearn.unlabelled labels i) eqn:Hi.
  - apply unlabelled_spec in Hi.
    pose proof (unlabelled_count_insert labels i label_num Hi ltac:(lia)) as Hcount.
    set (labels1 := <[i:=label_num]> labels) in *.
    assert (Hstack : (length (if default false (is_core !! i)
                        then sklearn.push_unlabelled labels1 (default [] (nbhds !! i)) stack
                        else stack) ≤ length stack + n)%nat).
    { destruct (default false (is_core !! i)); [|lia].
      etransitivity; [apply length_push_unlabelled|].
      destruct (nbhds !! i) as [nb|] eqn:Hnb; simpl; [|lia].
      pose proof (nbhds_small nb (list_elem_of_lookup_2 _ _ _ Hnb)). lia. }
    destruct (if default false (is_core !! i) then _ else _) as [|j st]; [done|].
    apply IH. simpl in Hstack. nia.
  - destruct stack as [|j st]; [done|]. apply IH. simpl in Hfuel. lia.
Qed.

Lemma visit_fuel_enough (k : nat) (state : list Z * Z) (i : nat) :
  length state.1 = n → (0 ≤ state.2)%Z →
  sklearn.visit (S (n * S n) + k) is_core nbhds state i
  = sklearn.visit (S (n * S n)) is_core nbhds state i.
Proof.
  destruct state as [labels num]. simpl. intros Hlen Hnum.
  unfold sklearn.visit. destruct (_ || _); [done|]. f_equal.
  apply (expand_fuel_enough num (S (n * S n)) k); [done|].
  pose proof (unlabelled_count_le labels). simpl. nia.
Qed.

Lemma visit_label_num (fuel : nat) (state : list Z * Z) (i : nat) :
  (0 ≤ state.2)%Z → (0 ≤ (sklearn.visit fuel is_core nbhds state i).2)%Z.
Proof.
  destruct state as [labels num]. unfold sklearn.visit.
  destruct (_ || _); simpl; lia.
Qed.

Lemma foldl_visit_fuel_enough (k : nat) (todo : list nat) (state : list Z * Z) :
  length state.1 = n → (0 ≤ state.2)%Z →
  foldl (sklearn.visit (S (n * S n) + k) is_core nbhds) state todo
  = foldl (sklearn.visit (S (n * S n)) is_core nbhds) state todo.
Proof.
  revert state. induction todo as [|i todo IH]; intros state Hlen Hnum; [done|].
  cbn [foldl]. rewrite visit_fuel_enough by done. apply IH.
  - by rewrite visit_length.
  - by apply visit_label_num.
Qed.
End Fuel.

Lemma length_neighbors_from (eps : Q) (p : point) (X : list point) (j0 : nat) :
  (length (sklearn.neighbors_from eps p X j0) ≤ length X)%nat.
Proof.
  revert j0. induction X as [|q X IH]; intros j0; simpl; [lia|].
  rewrite length_app. specialize (IH (S j0)).
  destruct (py.le _ _); simpl; lia.
Qed.

(** The fuel of [dbscan_inner] is never used up: with any amount more the
    labels of [DBSCAN_fit] come out the same. *)
Lemma DBSCAN_fit_fuel_enough (eps : Q) (min_samples : nat) (X : list point)
    (labels : list Z) (k : nat) :
  sklearn.DBSCAN_fit eps min_samples X = Ok labels →
  (foldl (sklearn.visit (S (length X * S (length X)) + k)
            (sklearn.core_samples min_samples (sklearn.neighborhoods eps X))
            (sklearn.neighborhoods eps X))
         ((λ _, (-1)%Z) <$> X, 0%Z) (seq 0 (length X))).1 = labels.
Proof.
  unfold sklearn.DBSCAN_fit. destruct X as [|p X]; [done|].
  generalize (p :: X). clear p X. intros X.
  intros [= <-]. unfold sklearn.dbscan_inner.
  rewrite length_fmap.
  rewrite (foldl_visit_fuel_enough _ _ (length X));
    [done| |apply length_fmap|done].
  intros nb Hnb. unfold sklearn.neighborhoods in Hnb.
  apply list_elem_of_fmap in Hnb as (q & -> & _). apply length_neighbors_from.
Qed.

(** ** The obstacles of [segment_obstacles] *)

Lemma DBSCAN_fit_core (eps : Q) (min_samples : nat) (X : list point) (labels : list Z)
    (j : nat) (l : Z) :
  sklearn.DBSCAN_fit eps min_samples X = Ok labels →
  labels !! j = Some l → l ≠ (-1)%Z →
  ∃ i, labels !! i = Some l ∧
       sklearn.core_samples min_samples (sklearn.neighborhoods eps X) !! i = Some true.
Proof.
  unfold sklearn.DBSCAN_fit. destruct X as [|p X]; [done|].
  generalize (p :: X). clear p X. intros X [= <-] Hj Hl.
  apply (dbscan_inner_core _ _ _ j l); [|done|done].
  by intros l' (q & -> & _)%list_elem_of_fmap.
Qed.

(** The walk over the set of labels visits exactly its members. *)
Lemma elem_of_iterate (labels : gset Z) (label : Z) :
  label ∈ iterate labels ↔ label ∈ labels.
Proof. unfold iterate. by rewrite merge_sort_Permutation, elem_of_elements. Qed.

Lemma elem_of_select {A} (xs : list A) (mask : list bool) (x : A) :
  x ∈ np.select xs mask ↔ ∃ i, xs !! i = Some x ∧ mask !! i = Some true.
Proof.
  revert mask. induction xs as [|y xs IH]; intros [|b mask]; simpl.
  - split; [by intros ?%elem_of_nil|by intros (i & ? & ?)].
  - split; [by intros ?%elem_of_nil|by intros (i & ? & ?)].
  - split; [by intros ?%elem_of_nil|by intros (i & ? & ?)].
  - rewrite elem_of_app, IH. split.
    + intros [Hx|(i & Hx & Hb)].
      * destruct b; [|by apply elem_of_nil in Hx].
        apply list_elem_of_singleton in Hx as ->. by exists 0%nat.
      * by exists (S i).
    + intros ([|i] & Hx & Hb); simpl in *.
      * injection Hx as ->. injection Hb as ->. left. by left.
      * right. by exists i.
Qed.

(** C6, as the code has it: every obstacle of [segment_obstacles] consists
    of exactly the points of the cloud that carry one label other than
    [-1], so noise never enters an obstacle; it is not empty; and it holds
    a core sample, a point with at least 20 points of the cloud within
    distance 10.  How many points the obstacle has itself is not bounded
    below by 20. *)
Theorem segment_obstacles_clusters (depth_map : list (list Q))
    (ground_mask : list (list bool)) (obstacles : list obstacle) :
  segment_obstacles depth_map ground_mask = Ok obstacles →
  ∃ (cloud : list point) (labels : list Z),
    point_cloud depth_map ground_mask = Ok cloud ∧
    sklearn.DBSCAN_fit 10 20 cloud = Ok labels ∧
    length labels = length cloud ∧
    ∀ o, o ∈ obstacles →
      points o ≠ [] ∧
      ∃ label, label ≠ (-1)%Z ∧
        (∀ p, p ∈ points o ↔ ∃ i, cloud !! i = Some p ∧ labels !! i = Some label) ∧
        ∃ (core : point) (js : list nat),
          core ∈ points o ∧ NoDup js ∧ (20 ≤ length js)%nat ∧
          ∀ j, j ∈ js → ∃ q, cloud !! j = Some q ∧ sklearn.sqdist core q <= 10 * 10.
Proof.
  unfold segment_obstacles. intros Hseg.
  destruct (point_cloud depth_map ground_mask) as [cloud|] eqn:Hcloud; [|done].
  simpl in Hseg.
  destruct (sklearn.DBSCAN_fit 10 20 cloud) as [labels|] eqn:Hfit; [|done].
  injection Hseg as <-.
  pose proof (DBSCAN_fit_length _ _ _ _ Hfit) as Hlen.
  exists cloud, labels. do 3 (split; [done|]).
  intros o Ho. unfold extract_obstacles in Ho.
  apply list_elem_of_fmap in Ho as (label & -> & Hlabel). simpl.
  apply elem_of_iterate, elem_of_difference in Hlabel as [Hin Hnoise].
  apply elem_of_list_to_set in Hin. rewrite elem_of_singleton in Hnoise.
  assert (Hmem : ∀ p, p ∈ np.select cloud ((λ l, bool_decide (l = label)) <$> labels)
                      ↔ ∃ i, cloud !! i = Some p ∧ labels !! i = Some label).
  { intros p. rewrite elem_of_select. split.
    - intros (i & Hp & Hb). exists i. split; [done|].
      rewrite list_lookup_fmap in Hb.
      destruct (labels !! i) as [l|]; [|done]. simpl in Hb.
      injection Hb as Hb. apply bool_decide_eq_true in Hb. by subst.
    - intros (i & Hp & Hl). exists i. split; [done|].
      rewrite list_lookup_fmap, Hl. simpl. by rewrite bool_decide_true. }
  apply list_elem_of_lookup in Hin as [j Hj].
  destruct (DBSCAN_fit_core _ _ _ _ j label Hfit Hj Hnoise) as (i & Hi & Hcore).
  destruct (core_sample_dense _ _ _ _ Hcore) as (core & js & Hp & Hnd & Hjs & Hnear).
  assert (Hcorein : core ∈ np.select cloud ((λ l, bool_decide (l = label)) <$> labels))
    by (apply Hmem; eauto).
  split.
  - intros Hnil. rewrite Hnil in Hcorein. by apply elem_of_nil in Hcorein.
  - exists label. do 2 (split; [done|]). by exists core, js.
Qed.

Lemma segment_obstacles_clusters_witness :
  ∃ (cloud : list point) (labels : list Z),
    point_cloud ring_depth (estimate_ground_plane ring_depth) = Ok cloud ∧
    sklearn.DBSCAN_fit 10 20 cloud = Ok labels ∧
    length labels = length cloud ∧
    ∀ o, o ∈ ring_obstacles →
      points o ≠ [] ∧
      ∃ label, label ≠ (-1)%Z ∧
        (∀ p, p ∈ points o ↔ ∃ i, cloud !! i = Some p ∧ labels !! i = Some label) ∧
        ∃ (core : point) (js : list nat),
          core ∈ points o ∧ NoDup js ∧ (20 ≤ length js)%nat ∧
          ∀ j, j ∈ js → ∃ q, cloud !! j = Some q ∧ sklearn.sqdist core q <= 10 * 10.
Proof.
  apply (segment_obstacles_clusters ring_depth (estimate_ground_plane ring_depth)
           ring_obstacles).
  by vm_compute.
Defined.

(** C6 as the specification words it fails on the rings.  The mask that
    [estimate_ground_plane] computes leaves the 37 ring pixels as the point
    cloud.  Both centres are core samples with exactly 20 points within
    distance 10, among them the three shared pixels of column 18, which
    are not core samples.  The search from [(9, 9)] comes first and takes
    the three, so the cluster of [(27, 9)] is an obstacle of 17 points. *)
Lemma segment_obstacles_counterexample :
  segment_obstacles ring_depth (estimate_ground_plane ring_depth) = Ok ring_obstacles ∧
  (λ o, (centroid o, length (points o))) <$> ring_obstacles
  = [(Point (179 # 20) (180 # 20) (0 # 20), 20%nat);
     (Point (487 # 17) (153 # 17) (0 # 17), 17%nat)] ∧
  ∃ o, o ∈ ring_obstacles ∧ (length (points o) < 20)%nat.
Proof.
  split; [by vm_compute|]. split; [by vm_compute|].
  eexists. split; [right; by left|]. vm_compute. lia.
Qed.

(** ** The frame loop *)

Section FrameLoop.

Variable arctan2 : Q → Q → Q.
Variable pi : Q.
Variable Frame : Type.
Variable estimate_depth : Frame → list (list Q).

(** Rounds that leave the loop running can be split off. *)
Lemma main_app (before rest : list (event Frame)) (w w' : world) :
  main arctan2 pi Frame estimate_depth before w = (Ok Looping, w') →
  main arctan2 pi Frame estimate_depth (before ++ rest) w
  = main arctan2 pi Frame estimate_depth rest w'.
Proof.
  revert w. induction before as [|[c|] before IH]; intros w.
  - by intros [= ->].
  - cbn [main app]. unfold mbind, IO_bind, lift.
    destruct (capture_frame (read c)) as [frame|e]; [|done].
    destruct (segment_obstacles _ _) as [obstacles|e]; [|done].
    destruct (trigger_haptic_feedback _ w) as [[[]|e] w1]; [|done].
    destruct (if config.SIMULATION_ENABLED then _ else _) as [[[]|e] w2]; [|done].
    destruct (Z.land (key c) 255 =? 113)%Z; [done|]. apply IH.
  - done.
Qed.

Lemma main_capture_fails (c : cycle Frame) (rest : list (event Frame)) (w : world) :
  (read c).1 = false →
  main arctan2 pi Frame estimate_depth (Tick c :: rest) w
  = (Raise (Exception "Failed to capture frame from camera"), w).
Proof.
  intros Hret. cbn [main]. unfold mbind, IO_bind, lift, capture_frame.
  destruct (read c) as [ret frame]. simpl in Hret. by rewrite Hret.
Qed.

(** C3, as the code has it: when the camera delivers no frame in some
    round, [capture_frame] raises, nothing in the loop catches it, the
    handler of the [__main__] block prints the error and the process is
    over, whatever the camera would have delivered later; the round of
    the missing frame writes nothing to the belt or the scene. *)
Theorem capture_failure_ends_the_process
    (before : list (event Frame)) (c : cycle Frame) (after : list (event Frame))
    (w w' : world) :
  main arctan2 pi Frame estimate_depth before w = (Ok Looping, w') →
  (read c).1 = false →
  run_main arctan2 pi Frame estimate_depth (before ++ Tick c :: after) w
  = (Exited,
     World (ser w') (scene w')
           (stdout w' ++ ["Error: Failed to capture frame from camera"%string])).
Proof.
  intros Hbefore Hret. unfold run_main.
  by rewrite (main_app _ _ _ _ Hbefore), main_capture_fails.
Qed.

End FrameLoop.

Lemma capture_failure_ends_the_process_witness :
  run_main arctan2_approx pi_approx depth_frame estimate_depth_id
    ([] ++ Tick (Cycle (false, []) (-1)) :: [Tick (Cycle (true, [[0]]) 113)]) world0
  = (Exited,
     World (ser world0) (scene world0)
           (stdout world0 ++ ["Error: Failed to capture frame from camera"%string])).
Proof.
  apply (capture_failure_ends_the_process arctan2_approx pi_approx depth_frame
           estimate_depth_id [] (Cycle (false, []) (-1))
           [Tick (Cycle (true, [[0]]) 113)] world0 world0); reflexivity.
Defined.

(** C3 as the specification words it fails on [script_dropped_frame]: the
    first round gets no frame and the process exits with the error printed;
    the second round, which on its own runs through and ends with the
    [q] key, is never tried. *)
Lemma main_counterexample :
  run_main arctan2_approx pi_approx depth_frame estimate_depth_id
    script_dropped_frame world0
  = (Exited, World [] [] ["Error: Failed to capture frame from camera"%string]) ∧
  run_main arctan2_approx pi_approx depth_frame estimate_depth_id
    (tail script_dropped_frame) world0
  = (Exited, World [] [[]] []).
Proof. split; by vm_compute. Qed.

(** ** The scenarios of the specification *)

(** One obstacle centred at pixel (320, 240) with depth 1.0 is straight
    ahead, and of two obstacles in [N] the nearer one counts. *)
Example map_obstacles_to_sectors_scenarios :
  map_obstacles_to_sectors arctan2_approx pi_approx
    [Obstacle (Point 320 240 1) []]
  = [("N", Some 1); ("NE", None); ("NW", None)]%string ∧
  map_obstacles_to_sectors arctan2_approx pi_approx
    [Obstacle (Point 320 240 3) []; Obstacle (Point 330 200 1) []]
  = [("N", Some 1); ("NE", None); ("NW", None)]%string.
Proof. split; by vm_compute. Qed.

(** A frame that is all ground stops the process: the [ValueError] of the
    clusterer reaches the handler of the [__main__] block. *)
Example main_all_ground_frame :
  run_main arctan2_approx pi_approx depth_frame estimate_depth_id
    [Tick (Cycle (true, ground_pixel_depth) (-1)); Tick (Cycle (true, [[0]]) 113)]
    world0
  = (Exited,
     World [] []
       ["Error: Found array with 0 sample(s) (shape=(0, 3)) while a minimum of 1 is required by DBSCAN."%string]).
Proof. by vm_compute. Qed.

(** * Further properties *)

(** ** The point cloud holds the non-ground pixels and nothing else *)

Lemma row_point_inv (row : list Q) (mrow : list bool) (u0 v : nat) (p : point) :
  p ∈ vstack_T (np.true_columns mrow u0) ((λ _, v) <$> np.true_columns mrow u0)
        (np.select row mrow) →
  ∃ j z, row !! j = Some z ∧ mrow !! j = Some true
         ∧ p = Point (np.of_nat (u0 + j)) (np.of_nat v) z.
Proof.
  revert mrow u0. induction row as [|x row IH]; intros [|b mrow] u0; simpl.
  - by intros ?%elem_of_nil.
  - destruct (_ ++ _); by intros ?%elem_of_nil.
  - by intros ?%elem_of_nil.
  - destruct b; simpl.
    + intros [->|Hp]%elem_of_cons.
      * exists 0%nat, x. by rewrite Nat.add_0_r.
      * destruct (IH mrow (S u0) Hp) as (j & z & Hz & Hb & ->).
        exists (S j), z. split; [done|]. split; [done|].
        by replace (u0 + S j)%nat with (S u0 + j)%nat by lia.
    + intros Hp. destruct (IH mrow (S u0) Hp) as (j & z & Hz & Hb & ->).
      exists (S j), z. split; [done|]. split; [done|].
        by replace (u0 + S j)%nat with (S u0 + j)%nat by lia.
Qed.

Lemma cloud_point_inv (a : list (list Q)) (m : list (list bool)) (v0 : nat) (p : point) :
  Forall2 (λ r mr, length r = length mr) a m →
  p ∈ vstack_T (np.where_from m v0).2 (np.where_from m v0).1
        (concat (zip_with np.select a m)) →
  ∃ i j row mrow z, a !! i = Some row ∧ m !! i = Some mrow ∧
    row !! j = Some z ∧ mrow !! j = Some true ∧
    p = Point (np.of_nat j) (np.of_nat (v0 + i)) z.
Proof.
  intros Hlen. revert v0. induction Hlen as [|r mr a m Hr Hlen IH]; intros v0.
  - by intros ?%elem_of_nil.
  - simpl. destruct (np.where_from m (S v0)) as [vs us] eqn:E. simpl.
    rewrite vstack_T_app;
      [|by rewrite length_fmap|by apply length_true_columns_select].
    intros [Hp|Hp]%elem_of_app.
    + apply row_point_inv in Hp as (j & z & Hz & Hb & ->).
      exists 0%nat, j, r, mr, z. by rewrite Nat.add_0_r.
    + specialize (IH (S v0)). rewrite E in IH.
      destruct (IH Hp) as (i & j & row & mrow & z & Ha & Hm & Hz & Hb & ->).
      exists (S i), j, row, mrow, z. do 4 (split; [done|]).
      by replace (v0 + S i)%nat with (S v0 + i)%nat by lia.
Qed.

Lemma rectangular_same_rows {A B} (a : list (list A)) (m : list (list B)) :
  np.rectangular a → np.rectangular m → np.shape a = np.shape m →
  Forall2 (λ r mr, length r = length mr) a m.
Proof.
  intros Ha Hm [= Hrows Hcols]. apply Forall2_same_length_lookup. split; [done|].
  intros i r mr Hr Hmr.
  rewrite (Ha r), (Hm mr); [done| |]; by eapply list_elem_of_lookup_2.
Qed.

Lemma point_cloud_members (depth_map : list (list Q)) (ground_mask : list (list bool)) :
  np.rectangular depth_map → np.rectangular ground_mask →
  np.shape depth_map = np.shape ground_mask →
  ∃ cloud : list point,
    point_cloud depth_map ground_mask = Ok cloud ∧
    ∀ p, p ∈ cloud ↔
      ∃ (v u : nat) (z : Q),
        np.item depth_map v u = Some z ∧ np.item ground_mask v u = Some false ∧
        p = Point (np.of_nat u) (np.of_nat v) z.
Proof.
  intros Hd Hm Hshape. unfold point_cloud, np.where_, np.getitem_mask.
  destruct (np.where_from _ 0) as [vs us] eqn:E.
  rewrite bool_decide_true by (unfold np.invert; by rewrite shape_map). simpl.
  eexists. split; [reflexivity|].
  assert (Hrows : Forall2 (λ r mr, length r = length mr) depth_map
                    (np.invert ground_mask)).
  { pose proof (rectangular_same_rows _ _ Hd Hm Hshape) as H.
    unfold np.invert, np.map. apply Forall2_fmap_r.
    eapply Forall2_impl; [done|]. intros r mr Hrm. simpl. rewrite Hrm.
    symmetry. apply length_fmap. }
  intros p. split.
  - intros Hp.
    pose proof (cloud_point_inv depth_map (np.invert ground_mask) 0 p Hrows) as H.
    rewrite E in H. destruct (H Hp) as (i & j & row & mrow & z & Ha & Hmi & Hz & Hb & ->).
    exists i, j, z. unfold np.item. rewrite Ha. simpl. split; [done|]. split; [|done].
    unfold np.invert, np.map in Hmi. rewrite list_lookup_fmap in Hmi.
    destruct (ground_mask !! i) as [gr|]; [|done]. simpl in *.
    injection Hmi as <-. rewrite list_lookup_fmap in Hb.
    destruct (gr !! j) as [[|]|]; done.
  - intros (v & u & z & Hz & Hg & ->). unfold np.item in Hz, Hg.
    destruct (depth_map !! v) as [row|] eqn:Hrow; [|done].
    destruct (ground_mask !! v) as [gr|] eqn:Hgr; [|done]. simpl in Hz, Hg.
    pose proof (cloud_point_elem depth_map (np.invert ground_mask) 0 v u row
                  (negb <$> gr) z Hrows Hrow) as H.
    rewrite E in H. apply H; [|done|].
    + unfold np.invert, np.map. by rewrite list_lookup_fmap, Hgr.
    + by rewrite list_lookup_fmap, Hg.
Qed.

(** X1: when depth map and mask are arrays of one shape, the point cloud
    of [segment_obstacles] is built without error and its members are
    exactly the points [(u, v, depth[v, u])] of the pixels the mask does
    not mark as ground. *)
Theorem point_cloud_exact (depth_map : list (list Q)) (ground_mask : list (list bool)) :
  np.rectangular depth_map → np.rectangular ground_mask →
  np.shape depth_map = np.shape ground_mask →
  ∃ cloud : list point,
    point_cloud depth_map ground_mask = Ok cloud ∧
    ∀ p, p ∈ cloud ↔
      ∃ (v u : nat) (z : Q),
        np.item depth_map v u = Some z ∧ np.item ground_mask v u = Some false ∧
        p = Point (np.of_nat u) (np.of_nat v) z.
Proof. apply point_cloud_members. Qed.

Lemma point_cloud_exact_witness :
  ∃ cloud : list point,
    point_cloud [[0; 1]] [[false; true]] = Ok cloud ∧
    ∀ p, p ∈ cloud ↔
      ∃ (v u : nat) (z : Q),
        np.item [[0; 1]] v u = Some z ∧ np.item [[false; true]] v u = Some false ∧
        p = Point (np.of_nat u) (np.of_nat v) z.
Proof.
  apply (point_cloud_exact [[0; 1]] [[false; true]]).
  - intros row ->%list_elem_of_singleton. reflexivity.
  - intros row ->%list_elem_of_singleton. reflexivity.
  - reflexivity.
Defined.

(** ** More on the ground plane *)

Lemma rectangular_estimate_ground_plane (depth_map : list (list Q)) :
  np.rectangular depth_map → np.rectangular (estimate_ground_plane depth_map).
Proof.
  intros Hrect mrow Hmrow.
  apply list_elem_of_lookup in Hmrow as [v Hv].
  assert (is_Some (depth_map !! v)) as [row Hrow].
  { apply lookup_lt_is_Some. rewrite <- length_estimate_ground_plane.
    by eapply lookup_lt_Some. }
  rewrite <- (row_length_estimate_ground_plane depth_map v row mrow Hrect Hrow Hv).
  pose proof (shape_estimate_ground_plane depth_map Hrect) as [= _ ->].
  apply Hrect. by eapply list_elem_of_lookup_2.
Qed.

Lemma of_nat_nonneg (n : nat) : 0 <= np.of_nat n.
Proof. unfold np.of_nat, Qle. simpl. lia. Qed.

Lemma of_nat_lt (n m : nat) : (n < m)%nat → np.of_nat n < np.of_nat m.
Proof. unfold np.of_nat, Qlt. simpl. lia. Qed.

(** |height| stays at or above the tolerance when y is above -1.1 *)
Lemma height_not_ground (rows v : nat) (z : Q) :
  - (11 # 10) * config.FOCAL_LENGTH <= (np.of_nat v - np.of_nat rows / 2) * z →
  py.lt (Qabs (height_at rows v z)) GROUND_TOLERANCE = false.
Proof.
  intros H. apply lt_false. unfold height_at, GROUND_TOLERANCE,
    config.GROUND_HEIGHT_THRESHOLD, config.FOCAL_LENGTH in *.
  set (a := (np.of_nat v - np.of_nat rows / 2) * z) in *.
  assert (E : - (a / 525.0) - 1.2 == - (a * (1 # 525)) - (12 # 10)) by field.
  rewrite E. rewrite Qabs_neg by lra. lra.
Qed.

(** X3: a pixel in the lower half of the image, row [v >= height / 2], with
    a depth that is not negative is never marked as ground: there [y >= 0]
    and the height is at most [-1.2]. *)
Theorem ground_never_below_centre (depth_map : list (list Q)) (v u : nat) :
  np.of_nat (length depth_map) / 2 <= np.of_nat v →
  (∀ z, np.item depth_map v u = Some z → 0 <= z) →
  np.item (estimate_ground_plane depth_map) v u ≠ Some true.
Proof.
  intros Hv Hz. rewrite item_estimate_ground_plane.
  case_bool_decide; [|done].
  destruct (np.item depth_map v u) as [z|]; [|done].
  cbn [fmap option_fmap option_map]. specialize (Hz z eq_refl).
  rewrite height_not_ground; [done|].
  unfold config.FOCAL_LENGTH.
  assert (0 <= (np.of_nat v - np.of_nat (length depth_map) / 2) * z)
    by (apply Qmult_le_0_compat; lra).
  lra.
Qed.

Lemma unit_depth_not_ground (depth_map : list (list Q)) (v u : nat) :
  np.of_nat (length depth_map) <= config.FRAME_HEIGHT →
  (∀ z, np.item depth_map v u = Some z → 0 <= z ∧ z <= 1) →
  np.item (estimate_ground_plane depth_map) v u ≠ Some true.
Proof.
  intros Hrows Hz. rewrite item_estimate_ground_plane.
  case_bool_decide; [|done].
  destruct (np.item depth_map v u) as [z|]; [|done].
  cbn [fmap option_fmap option_map]. destruct (Hz z eq_refl) as [Hz0 Hz1].
  rewrite height_not_ground; [done|].
  unfold config.FOCAL_LENGTH, config.FRAME_HEIGHT in *.
  pose proof (of_nat_nonneg v) as Hv.
  assert (Ediv : np.of_nat (length depth_map) / 2
                 == np.of_nat (length depth_map) * (1 # 2)) by field.
  set (a := np.of_nat v - np.of_nat (length depth_map) / 2).
  assert (Ha : -240 <= a) by (unfold a; rewrite Ediv; lra).
  assert (- 240 <= a * z).
  { destruct (Qlt_le_dec a 0) as [Hneg|Hpos].
    - assert (0 <= (- a) * (1 - z)) by (apply Qmult_le_0_compat; lra).
      assert (E : - a * (1 - z) == a * z - a) by ring. lra.
    - assert (0 <= a * z) by (apply Qmult_le_0_compat; lra). lra. }
  lra.
Qed.

Lemma ground_never_below_centre_witness :
  np.item (estimate_ground_plane [[630]; [630]]) 1 0 ≠ Some true.
Proof.
  apply (ground_never_below_centre [[630]; [630]] 1 0).
  - vm_compute. discriminate.
  - intros z [= <-]. vm_compute. discriminate.
Defined.

(** X2: the ground mask of an array has the shape of the array and is an
    array itself. *)
Theorem estimate_ground_plane_shape (depth_map : list (list Q)) :
  np.rectangular depth_map →
  np.shape (estimate_ground_plane depth_map) = np.shape depth_map ∧
  np.rectangular (estimate_ground_plane depth_map).
Proof.
  intros Hrect. split.
  - by apply shape_estimate_ground_plane.
  - by apply rectangular_estimate_ground_plane.
Qed.

Lemma estimate_ground_plane_shape_witness :
  np.shape (estimate_ground_plane [[630; 0]; [0; 1]]) = np.shape [[630; 0]; [0; 1]] ∧
  np.rectangular (estimate_ground_plane [[630; 0]; [0; 1]]).
Proof.
  apply (estimate_ground_plane_shape [[630; 0]; [0; 1]]).
  intros row Hrow.
  repeat (apply elem_of_cons in Hrow as [->|Hrow]; [reflexivity|]).
  by apply elem_of_nil in Hrow.
Defined.

(** X4: on a depth map with values between 0 and 1 and at most
    [FRAME_HEIGHT] rows no pixel is marked as ground, since [|y|] stays
    below [240 / 525]; so every pixel of the frame is a point of the cloud
    that goes to the clusterer. *)
Theorem unit_depth_all_obstacle (depth_map : list (list Q)) :
  np.rectangular depth_map →
  np.of_nat (length depth_map) <= config.FRAME_HEIGHT →
  (∀ v u z, np.item depth_map v u = Some z → 0 <= z ∧ z <= 1) →
  (∀ v u b, np.item (estimate_ground_plane depth_map) v u = Some b → b = false) ∧
  ∃ cloud : list point,
    point_cloud depth_map (estimate_ground_plane depth_map) = Ok cloud ∧
    ∀ v u z, np.item depth_map v u = Some z →
      Point (np.of_nat u) (np.of_nat v) z ∈ cloud.
Proof.
  intros Hrect Hrows Hunit.
  assert (Hmask : ∀ v u b,
    np.item (estimate_ground_plane depth_map) v u = Some b → b = false).
  { intros v u [|] Hb; [|done]. exfalso.
    by apply (unit_depth_not_ground depth_map v u Hrows (Hunit v u)). }
  split; [done|].
  destruct (point_cloud_members depth_map (estimate_ground_plane depth_map))
    as (cloud & Hcloud & Hmem).
  - done.
  - by apply rectangular_estimate_ground_plane.
  - symmetry. by apply shape_estimate_ground_plane.
  - exists cloud. split; [done|]. intros v u z Hz. apply Hmem.
    exists v, u, z. split; [done|]. split; [|done].
    pose proof (item_estimate_ground_plane depth_map v u) as Hitem.
    rewrite bool_decide_true, Hz in Hitem by (by eapply rectangular_width).
    cbn [fmap option_fmap option_map] in Hitem.
    rewrite Hitem. f_equal. by eapply Hmask.
Qed.

Lemma unit_depth_all_obstacle_witness :
  (∀ v u b, np.item (estimate_ground_plane [[0; 1]]) v u = Some b → b = false) ∧
  ∃ cloud : list point,
    point_cloud [[0; 1]] (estimate_ground_plane [[0; 1]]) = Ok cloud ∧
    ∀ v u z, np.item [[0; 1]] v u = Some z →
      Point (np.of_nat u) (np.of_nat v) z ∈ cloud.
Proof.
  apply (unit_depth_all_obstacle [[0; 1]]).
  - intros row ->%list_elem_of_singleton. reflexivity.
  - vm_compute. discriminate.
  - intros [|v] [|[|u]] z; try done; intros [= <-]; split; vm_compute; discriminate.
Defined.

(** ** The normalisation of the depth map *)

Lemma max_elem (x : Q) (xs : list Q) : max_of x xs ∈ x :: xs.
Proof.
  revert x. induction xs as [|y xs IH]; intros x; simpl.
  - by left.
  - destruct (py.lt x y).
    + right. apply IH.
    + specialize (IH x). apply elem_of_cons in IH as [->|IH].
      * by left.
      * by do 2 right.
Qed.

Lemma max_ge_first (x : Q) (xs : list Q) : x <= max_of x xs.
Proof.
  revert x. induction xs as [|y xs IH]; intros x; simpl.
  - lra.
  - destruct (py.lt x y) eqn:E.
    + apply lt_spec in E. specialize (IH y). lra.
    + apply IH.
Qed.

Lemma max_upper_bound (x : Q) (xs : list Q) (y : Q) :
  y ∈ x :: xs → y <= max_of x xs.
Proof.
  revert x. induction xs as [|x' xs IH]; intros x Hy.
  - apply list_elem_of_singleton in Hy as ->. simpl. lra.
  - simpl. apply elem_of_cons in Hy as [->|Hy].
    + destruct (py.lt x x') eqn:E.
      * apply lt_spec in E. pose proof (max_ge_first x' xs). lra.
      * apply max_ge_first.
    + apply elem_of_cons in Hy as [->|Hy].
      * destruct (py.lt x x') eqn:E.
        -- apply max_ge_first.
        -- apply lt_false in E. pose proof (max_ge_first x xs). lra.
      * apply IH. by right.
Qed.

Lemma elem_of_concat {A} (a : list (list A)) (x : A) :
  x ∈ concat a ↔ ∃ row, x ∈ row ∧ row ∈ a.
Proof.
  induction a as [|r a IH]; simpl.
  - split; [by intros ?%elem_of_nil|by intros (? & _ & ?%elem_of_nil)].
  - rewrite elem_of_app, IH. split.
    + intros [Hx|(row & Hx & Hrow)]; [exists r|exists row]; split; try done;
        [by left|by right].
    + intros (row & Hx & [->|Hrow]%elem_of_cons); [by left|right; eauto].
Qed.

Lemma item_elem_of_concat {A} (a : list (list A)) (v u : nat) (x : A) :
  np.item a v u = Some x → x ∈ concat a.
Proof.
  unfold np.item. destruct (a !! v) as [row|] eqn:Hrow; [|done]. simpl. intros Hx.
  apply elem_of_concat. exists row. split; by eapply list_elem_of_lookup_2.
Qed.

Lemma elem_of_concat_item {A} (a : list (list A)) (x : A) :
  x ∈ concat a → ∃ v u, np.item a v u = Some x.
Proof.
  intros (row & [u Hu]%list_elem_of_lookup & [v Hv]%list_elem_of_lookup)%elem_of_concat.
  exists v, u. unfold np.item. by rewrite Hv.
Qed.

Lemma normalize_depth_spec (depth out : list (list Q)) :
  normalize_depth depth = Normalized out →
  np.shape out = np.shape depth ∧
  (∀ v u x, np.item out v u = Some x → 0 <= x ∧ x <= 1) ∧
  (∃ v u x, np.item out v u = Some x ∧ x == 0) ∧
  (∃ v u x, np.item out v u = Some x ∧ x == 1) ∧
  (∀ v u v' u' z z' x x',
     np.item depth v u = Some z → np.item depth v' u' = Some z' →
     np.item out v u = Some x → np.item out v' u' = Some x' →
     z <= z' → x <= x').
Proof.
  unfold normalize_depth. destruct (concat depth) as [|d ds] eqn:Hflat; [done|].
  destruct (Qeq_bool _ _) eqn:Hdeg; [done|]. intros [= <-].
  set (mn := py.min d ds) in *. set (mx := max_of d ds) in *.
  assert (Hmn : ∀ z, z ∈ concat depth → mn <= z)
    by (intros z Hz; rewrite Hflat in Hz; by apply min_lower_bound).
  assert (Hmx : ∀ z, z ∈ concat depth → z <= mx)
    by (intros z Hz; rewrite Hflat in Hz; by apply max_upper_bound).
  assert (Hlt : mn < mx).
  { assert (mn <= mx) by (apply Hmn; rewrite Hflat; apply max_elem).
    assert (¬ mx == mn).
    { intros H'. apply Qeq_bool_iff in H'. congruence. }
    lra. }
  assert (Hitem : ∀ v u, np.item (np.div_scalar (np.sub_scalar depth mn) (mx - mn)) v u
                         = (λ z, (z - mn) / (mx - mn)) <$> np.item depth v u).
  { intros v u. unfold np.div_scalar, np.sub_scalar. rewrite !item_map.
    by destruct (np.item depth v u). }
  assert (Hunit : ∀ z, mn <= z → z <= mx → 0 <= (z - mn) / (mx - mn) ∧ (z - mn) / (mx - mn) <= 1).
  { intros z H1 H2. split.
    - apply Qle_shift_div_l; lra.
    - apply Qle_shift_div_r; lra. }
  split; [|split; [|split; [|split]]].
  - unfold np.div_scalar, np.sub_scalar. by rewrite !shape_map.
  - intros v u x. rewrite Hitem.
    destruct (np.item depth v u) as [z|] eqn:Hz; [|done]. intros [= <-].
    apply item_elem_of_concat in Hz. apply Hunit; auto.
  - assert (mn ∈ concat depth) as (v & u & Hz)%elem_of_concat_item
      by (rewrite Hflat; apply min_elem).
    exists v, u, ((mn - mn) / (mx - mn)). rewrite Hitem, Hz. split; [done|].
    field. lra.
  - assert (mx ∈ concat depth) as (v & u & Hz)%elem_of_concat_item
      by (rewrite Hflat; apply max_elem).
    exists v, u, ((mx - mn) / (mx - mn)). rewrite Hitem, Hz. split; [done|].
    field. lra.
  - intros v u v' u' z z' x x' Hz Hz'. rewrite !Hitem, Hz, Hz'.
    intros [= <-] [= <-] Hle.
    apply Qmult_le_compat_r; [lra|]. apply Qlt_le_weak, Qinv_lt_0_compat. lra.
Qed.

(** X5: when the network output is not uniform, the normalised depth map
    has the shape of the output, all its values lie between 0 and 1, the
    values 0 and 1 both occur, and a pixel that was nearer in the output is
    not farther after the normalisation. *)
Theorem normalize_depth_range (depth out : list (list Q)) :
  normalize_depth depth = Normalized out →
  np.shape out = np.shape depth ∧
  (∀ v u x, np.item out v u = Some x → 0 <= x ∧ x <= 1) ∧
  (∃ v u x, np.item out v u = Some x ∧ x == 0) ∧
  (∃ v u x, np.item out v u = Some x ∧ x == 1) ∧
  (∀ v u v' u' z z' x x',
     np.item depth v u = Some z → np.item depth v' u' = Some z' →
     np.item out v u = Some x → np.item out v' u' = Some x' →
     z <= z' → x <= x').
Proof. apply normalize_depth_spec. Qed.

Lemma normalize_depth_range_witness :
  np.shape (np.div_scalar (np.sub_scalar [[1; 3]] 1) (3 - 1)) = np.shape [[1; 3]] ∧
  (∀ v u x, np.item (np.div_scalar (np.sub_scalar [[1; 3]] 1) (3 - 1)) v u = Some x →
     0 <= x ∧ x <= 1) ∧
  (∃ v u x, np.item (np.div_scalar (np.sub_scalar [[1; 3]] 1) (3 - 1)) v u = Some x
            ∧ x == 0) ∧
  (∃ v u x, np.item (np.div_scalar (np.sub_scalar [[1; 3]] 1) (3 - 1)) v u = Some x
            ∧ x == 1) ∧
  (∀ v u v' u' z z' x x',
     np.item [[1; 3]] v u = Some z → np.item [[1; 3]] v' u' = Some z' →
     np.item (np.div_scalar (np.sub_scalar [[1; 3]] 1) (3 - 1)) v u = Some x →
     np.item (np.div_scalar (np.sub_scalar [[1; 3]] 1) (3 - 1)) v' u' = Some x' →
     z <= z' → x <= x').
Proof.
  apply (normalize_depth_range [[1; 3]]). reflexivity.
Defined.

(** X7: a frame of at most [FRAME_HEIGHT] rows whose depth map comes out
    of the normalisation has no ground at all: [estimate_ground_plane]
    marks none of its pixels. *)
Theorem normalized_frame_has_no_ground (depth out : list (list Q)) (v u : nat) (b : bool) :
  normalize_depth depth = Normalized out →
  np.of_nat (length depth) <= config.FRAME_HEIGHT →
  np.item (estimate_ground_plane out) v u = Some b → b = false.
Proof.
  intros Hnorm Hrows Hb. destruct b; [|done]. exfalso.
  destruct (normalize_depth_spec depth out Hnorm) as ([= Hlen _] & Hunit & _).
  apply (unit_depth_not_ground out v u); [by rewrite Hlen|by apply Hunit|done].
Qed.

(** ** More on the haptic belt *)

Lemma for_each_app {A} (body : A → IO unit) (xs ys : list A) (w : world) :
  for_each (xs ++ ys) body w
  = match for_each xs body w with
    | (Ok _, w1) => for_each ys body w1
    | (Raise e, w1) => (Raise e, w1)
    end.
Proof.
  revert w. induction xs as [|x xs IH]; intros w; [done|].
  simpl. unfold mbind, IO_bind. destruct (body x w) as [[[]|e] w1]; [apply IH|done].
Qed.

(** X8: a sector without a motor whose distance calls for a command makes
    [trigger_haptic_feedback] raise [KeyError] for it; the commands of the
    sectors before it have been written by then and stay written, the
    sectors after it are not handled. *)
Theorem trigger_haptic_feedback_unknown_sector
    (before after : list (string * option Q)) (k : string) (d : Q) (w w1 : world) :
  trigger_haptic_feedback before w = (Ok tt, w1) →
  motor_map !! k = None → ¬ d == 0 → d < config.WARNING_DISTANCE →
  trigger_haptic_feedback (before ++ (k, Some d) :: after) w = (Raise (KeyError k), w1).
Proof.
  intros Hbefore Hk Hnz Hlt. unfold trigger_haptic_feedback in *.
  rewrite for_each_app, Hbefore. simpl. unfold mbind, IO_bind.
  apply truthy_spec in Hnz. apply lt_spec in Hlt. by rewrite Hnz, Hlt, Hk.
Qed.

Lemma trigger_haptic_feedback_unknown_sector_witness :
  trigger_haptic_feedback
    [("N", Some 0.5); ("S", Some 1); ("NW", Some 1.5)]%string world0
  = (Raise (KeyError "S"), World [command_line 0 191] [] []).
Proof.
  apply (trigger_haptic_feedback_unknown_sector
           [("N", Some 0.5)]%string [("NW", Some 1.5)]%string "S" 1 world0
           (World [command_line 0 191] [] [])).
  - by vm_compute.
  - by vm_compute.
  - vm_compute. discriminate.
  - by vm_compute.
Defined.

(** X9: a sector whose distance is [None], is 0, or is not below the
    warning distance is passed over without a look at the motor table:
    the call does what it does without that sector, whatever its name. *)
Theorem trigger_haptic_feedback_skips
    (before after : list (string * option Q)) (k : string) (v : option Q) (w : world) :
  (∀ d, v = Some d → d == 0 ∨ config.WARNING_DISTANCE <= d) →
  trigger_haptic_feedback (before ++ (k, v) :: after) w
  = trigger_haptic_feedback (before ++ after) w.
Proof.
  intros Hv. unfold trigger_haptic_feedback. rewrite !for_each_app.
  destruct (for_each before _ w) as [[[]|e] w1]; [|done].
  simpl. unfold mbind, IO_bind. destruct v as [d|]; [|done].
  destruct (Hv d eq_refl) as [Hz|Hfar].
  - assert (py.truthy d = false) as ->; [|done].
    apply not_true_iff_false. rewrite truthy_spec. tauto.
  - apply lt_false in Hfar. rewrite Hfar, andb_false_r. done.
Qed.

(** *** The command lines *)

Lemma occurs_string_of_uint (c : ascii) (d : Decimal.uint) :
  (c =? "0")%char = false → (c =? "1")%char = false → (c =? "2")%char = false →
  (c =? "3")%char = false → (c =? "4")%char = false → (c =? "5")%char = false →
  (c =? "6")%char = false → (c =? "7")%char = false → (c =? "8")%char = false →
  (c =? "9")%char = false →
  occurs c (NilEmpty.string_of_uint d) = false.
Proof.
  intros H0 H1 H2 H3 H4 H5 H6 H7 H8 H9.
  induction d; simpl; rewrite ?H0, ?H1, ?H2, ?H3, ?H4, ?H5, ?H6, ?H7, ?H8, ?H9; done.
Qed.

Lemma occurs_str (c : ascii) (n : Z) :
  c = ","%char ∨ c = "010"%char → occurs c (py.str n) = false.
Proof.
  intros Hc. unfold py.str.
  assert (∀ d, occurs c (NilZero.string_of_uint d) = false) as Hu.
  { intros d. unfold NilZero.string_of_uint.
    destruct d; try (apply occurs_string_of_uint; by destruct Hc as [-> | ->]).
    by destruct Hc as [-> | ->]. }
  destruct (Z.to_int n) as [d|d]; simpl; [apply Hu|].
  rewrite Hu. by destruct Hc as [-> | ->].
Qed.

Lemma split_at_char (c : ascii) (a a' b b' : string) :
  occurs c a = false → occurs c a' = false →
  (a ++ String c b)%string = (a' ++ String c b')%string → a = a' ∧ b = b'.
Proof.
  revert a'. induction a as [|x a IH]; intros [|x' a']; simpl.
  - by intros _ _ [= ->].
  - intros _ [Hx _]%orb_false_iff [= <- _]. by rewrite Ascii.eqb_refl in Hx.
  - intros [Hx _]%orb_false_iff _ [= -> _]. by rewrite Ascii.eqb_refl in Hx.
  - intros [_ Ha]%orb_false_iff [_ Ha']%orb_false_iff [= -> H].
    destruct (IH a' Ha Ha' H) as [-> ->]. done.
Qed.

Lemma to_int_proper (n : Z) :
  Z.to_int n ≠ Decimal.Pos Decimal.Nil ∧ Z.to_int n ≠ Decimal.Neg Decimal.Nil.
Proof.
  destruct n as [|p|p]; simpl; split; try done;
    intros [= H]; by apply (Unsigned.to_uint_nonnil p).
Qed.

Lemma str_inj (n n' : Z) : py.str n = py.str n' → n = n'.
Proof.
  unfold py.str. intros H.
  destruct (to_int_proper n) as [H1 H2]. destruct (to_int_proper n') as [H1' H2'].
  pose proof (NilZero.isi _ H1 H2) as E. rewrite H, (NilZero.isi _ H1' H2') in E.
  injection E as E. rewrite <- (DecimalZ.of_to n), <- (DecimalZ.of_to n'). by rewrite E.
Qed.

Lemma trigger_haptic_feedback_skips_witness :
  trigger_haptic_feedback
    [("N", Some 0.5); ("S", Some 2); ("NW", Some 1.5)]%string world0
  = trigger_haptic_feedback [("N", Some 0.5); ("NW", Some 1.5)]%string world0.
Proof.
  apply (trigger_haptic_feedback_skips
           [("N", Some 0.5)]%string [("NW", Some 1.5)]%string "S" (Some 2) world0).
  intros d [= <-]. right. vm_compute. discriminate.
Defined.

(** X10: the line written for a command determines the command: two
    lines are equal only if motor and intensity are. *)
Theorem command_line_inj (motor_id intensity motor_id' intensity' : Z) :
  command_line motor_id intensity = command_line motor_id' intensity' →
  motor_id = motor_id' ∧ intensity = intensity'.
Proof.
  unfold command_line. intros H.
  apply (split_at_char ","%char) in H as [Hm Hi]; [|by apply occurs_str; left..].
  apply (split_at_char "010"%char _ _ ""%string ""%string) in Hi as [Hi _];
    [|by apply occurs_str; right..].
  split; by apply str_inj.
Qed.

Lemma command_line_inj_witness : 0%Z = 0%Z ∧ 191%Z = 191%Z.
Proof. apply (command_line_inj 0 191 0 191). reflexivity. Defined.

(** ** The order of the obstacles *)







Section ObstacleOrder.
Variable arctan2 : Q → Q → Q.
Variable pi : Q.

End ObstacleOrder.




Lemma int_ge_pos (x : Q) (n : Z) : (0 < n)%Z → (n ≤ py.int x)%Z ↔ inject_Z n <= x.
Proof.
  intros Hn. split.
  - intros H. destruct (Qlt_le_dec x 0) as [Hx|Hx].
    + rewrite int_nonpos in H by lra.
      assert (Qceiling x ≤ Qceiling 0)%Z by (apply Qceiling_resp_le; lra).
      change (Qceiling 0) with 0%Z in *. lia.
    + rewrite int_nonneg in H by done.
      pose proof (Qfloor_le x). 
      assert (inject_Z n <= inject_Z (Qfloor x)) by (rewrite <- Zle_Qle; done). lra.
  - intros H. rewrite <- (Qfloor_Z n) at 1.
    rewrite int_nonneg.
    + by apply Qfloor_resp_le.
    + assert (inject_Z 0 <= inject_Z n) by (rewrite <- Zle_Qle; lia).
      change (inject_Z 0) with 0 in *. lra.
Qed.

(** X12: the belt is sent commands of intensity 0.  A sector with a motor
    whose distance is at least 1.993 and still below the warning distance
    gets a command, and its intensity is 0: the product of line 13 is below
    1 there and [int] cuts it off.  (The product reaches 1 at
    [2 * 254 / 255], about 1.99216; from 1.993 on it is at most 0.8925,
    which the rounding of line 13 does not lift to 1.) *)
Theorem trigger_haptic_feedback_zero_intensity
    (sector : string) (motor_id : Z) (d : Q) (w : world) :
  motor_map !! sector = Some motor_id →
  1.993 <= d → d < config.WARNING_DISTANCE →
  trigger_haptic_feedback [(sector, Some d)] w
  = (Ok tt, World (ser w ++ [command_line motor_id 0]) (scene w) (stdout w)).
Proof.
  intros Hm Hlow Hup.
  assert (Hd : 1993 # 1000 <= d) by exact Hlow.
  assert (Hi : intensity_of d = 0%Z).
  { unfold intensity_of, config.WARNING_DISTANCE in *.
    set (x := 255 * (1 - d / 2.0)).
    assert (Ex : x == 255 - d * (255 # 2)) by (unfold x; field).
    clearbody x.
    pose proof (int_ge_pos x 1 ltac:(lia)) as H1. change (inject_Z 1) with 1 in H1.
    assert (¬ (1 ≤ py.int x)%Z) by (rewrite H1; lra). lia. }
  assert (Ht : py.truthy d = true).
  { apply truthy_spec. unfold config.WARNING_DISTANCE in *. lra. }
  apply lt_spec in Hup.
  cbn [trigger_haptic_feedback for_each]. unfold mbind, IO_bind.
  rewrite Ht, Hup, Hm, Hi. reflexivity.
Qed.

Lemma trigger_haptic_feedback_zero_intensity_witness :
  trigger_haptic_feedback [("N"%string, Some 1.995)] world0
  = (Ok tt, World (ser world0 ++ [command_line 0 0]) (scene world0) (stdout world0)).
Proof.
  apply (trigger_haptic_feedback_zero_intensity "N" 0 1.995 world0).
  - reflexivity.
  - unfold Qle. simpl. lia.
  - unfold config.WARNING_DISTANCE, Qlt. simpl. lia.
Defined.

(** The same on the floats, at both ends of the range. *)
#[warnings="-inexact-float"]
Example trigger_haptic_feedback_zero_intensity_floats :
  float64.trigger_haptic_feedback
    [("N"%string, Some 1.993%float); ("NE"%string, Some 1.9999999999999998%float)] world0
  = (Ok tt, World [command_line 0 0; command_line 1 0] [] []).
Proof. by vm_compute. Qed.

(** ** More on the obstacles *)

(** An obstacle is the selection of one label other than [-1]. *)
Lemma extract_obstacles_elem (cloud : list point) (labels : list Z) (o : obstacle) :
  o ∈ extract_obstacles cloud labels ↔
  ∃ label, label ∈ labels ∧ label ≠ (-1)%Z ∧
    o = Obstacle
          (mean_axis0 (np.select cloud ((λ l, bool_decide (l = label)) <$> labels)))
          (np.select cloud ((λ l, bool_decide (l = label)) <$> labels)).
Proof.
  unfold extract_obstacles. rewrite list_elem_of_fmap. split.
  - intros (label & -> & Hlabel).
    apply elem_of_iterate, elem_of_difference in Hlabel as [Hin Hnoise].
    apply elem_of_list_to_set in Hin. rewrite elem_of_singleton in Hnoise.
    by exists label.
  - intros (label & Hin & Hnoise & ->). exists label. split; [done|].
    apply elem_of_iterate, elem_of_difference. split.
    + by apply elem_of_list_to_set.
    + by rewrite elem_of_singleton.
Qed.

Lemma elem_of_select_label (cloud : list point) (labels : list Z) (label : Z) (p : point) :
  p ∈ np.select cloud ((λ l, bool_decide (l = label)) <$> labels)
  ↔ ∃ i, cloud !! i = Some p ∧ labels !! i = Some label.
Proof.
  rewrite elem_of_select. split.
  - intros (i & Hp & Hb). exists i. split; [done|].
    rewrite list_lookup_fmap in Hb.
    destruct (labels !! i) as [l|]; [|done]. simpl in Hb.
    injection Hb as Hb. apply bool_decide_eq_true in Hb. by subst.
  - intros (i & Hp & Hl). exists i. split; [done|].
    rewrite list_lookup_fmap, Hl. simpl. by rewrite bool_decide_true.
Qed.

(** A mean lies between the smallest and the largest of its terms. *)
Lemma sum_by_lower (f : point → Q) (ps : list point) :
  ps ≠ [] → ∃ p, p ∈ ps ∧ f p * np.of_nat (length ps) <= sum_by f ps.
Proof.
  induction ps as [|x ps IH]; [done|]. intros _.
  destruct ps as [|y ps].
  - exists x. split; [by left|]. unfold sum_by, np.of_nat. simpl. ring_simplify. lra.
  - destruct (IH ltac:(done)) as (p & Hp & Hsum).
    set (n := np.of_nat (length (y :: ps))) in *.
    assert (Hn : np.of_nat (length (x :: y :: ps)) == n + 1).
    { unfold n, np.of_nat, Qeq. simpl. lia. }
    assert (Hn0 : 0 <= n) by (unfold n, np.of_nat, Qle; simpl; lia).
    change (sum_by f (x :: y :: ps)) with (f x + sum_by f (y :: ps)).
    destruct (Qlt_le_dec (f x) (f p)) as [Hlt|Hle].
    + exists x. split; [by left|]. rewrite Hn.
      assert (0 <= (f p - f x) * n) by (apply Qmult_le_0_compat; lra).
      assert (E : (f p - f x) * n == f p * n - f x * n) by ring. 
      assert (E2 : f x * (n + 1) == f x * n + f x) by ring. lra.
    + exists p. split; [by right|]. rewrite Hn.
      assert (E2 : f p * (n + 1) == f p * n + f p) by ring. lra.
Qed.

Lemma sum_by_opp (f : point → Q) (ps : list point) :
  sum_by (λ p, - f p) ps == - sum_by f ps.
Proof.
  induction ps as [|x ps IH]; [done|].
  change (- f x + sum_by (λ p, - f p) ps == - (f x + sum_by f ps)). rewrite IH. ring.
Qed.

Lemma mean_between (f : point → Q) (ps : list point) :
  ps ≠ [] →
  ∃ p q, p ∈ ps ∧ q ∈ ps ∧
    f p <= sum_by f ps / np.of_nat (length ps) ∧
    sum_by f ps / np.of_nat (length ps) <= f q.
Proof.
  intros Hne.
  assert (Hn : 0 < np.of_nat (length ps)).
  { destruct ps; [done|]. unfold np.of_nat, Qlt. simpl. lia. }
  destruct (sum_by_lower f ps Hne) as (p & Hp & Hlow).
  destruct (sum_by_lower (λ p, - f p) ps Hne) as (q & Hq & Hup).
  rewrite sum_by_opp in Hup.
  exists p, q. do 2 (split; [done|]). split.
  - by apply Qle_shift_div_l.
  - apply Qle_shift_div_r; [done|]. lra.
Qed.

Lemma segment_obstacles_inv (depth_map : list (list Q)) (ground_mask : list (list bool))
    (obstacles : list obstacle) :
  segment_obstacles depth_map ground_mask = Ok obstacles →
  ∃ cloud labels,
    point_cloud depth_map ground_mask = Ok cloud ∧
    sklearn.DBSCAN_fit 10 20 cloud = Ok labels ∧
    obstacles = extract_obstacles cloud labels.
Proof.
  unfold segment_obstacles. intros Hseg.
  destruct (point_cloud depth_map ground_mask) as [cloud|]; [|done]. simpl in Hseg.
  destruct (sklearn.DBSCAN_fit 10 20 cloud) as [labels|] eqn:Hfit; [|done].
  injection Hseg as <-. by exists cloud, labels.
Qed.

Lemma obstacle_points (cloud : list point) (labels : list Z) (o : obstacle) :
  length labels = length cloud → o ∈ extract_obstacles cloud labels →
  points o ≠ [] ∧ centroid o = mean_axis0 (points o) ∧
  ∀ p, p ∈ points o → p ∈ cloud.
Proof.
  intros Hlen (label & Hin & Hnoise & ->)%extract_obstacles_elem. simpl.
  split; [|split; [done|]].
  - apply list_elem_of_lookup in Hin as [i Hi].
    destruct (cloud !! i) as [p|] eqn:Hp.
    + intros Hnil.
      assert (p ∈ np.select cloud ((λ l, bool_decide (l = label)) <$> labels)) as H
        by (apply elem_of_select_label; eauto).
      rewrite Hnil in H. by apply elem_of_nil in H.
    + apply lookup_ge_None in Hp. apply lookup_lt_Some in Hi. lia.
  - intros p (i & Hp & _)%elem_of_select_label. by eapply list_elem_of_lookup_2.
Qed.

Lemma centroid_between (f : point → Q) (o : obstacle) :
  points o ≠ [] → centroid o = mean_axis0 (points o) →
  (f = pu ∨ f = pv) →
  ∃ p q, p ∈ points o ∧ q ∈ points o ∧ f p <= f (centroid o) ∧ f (centroid o) <= f q.
Proof.
  intros Hne -> Hf. destruct (mean_between f (points o) Hne) as (p & q & Hp & Hq & H1 & H2).
  exists p, q. do 2 (split; [done|]).
  destruct Hf as [-> | ->]; by simpl.
Qed.

(** X13: in the image plane the centroid of every obstacle of
    [segment_obstacles] lies in the box of the obstacle's own pixels: in
    each of [u] and [v] some point of the obstacle is at or below the
    centroid and some point at or above it.  (The pixel coordinates are
    integers, which [np.mean] adds up without rounding; the mean of the
    depths is rounded and is left out.) *)
Theorem obstacle_centroid_in_box (depth_map : list (list Q)) (ground_mask : list (list bool))
    (obstacles : list obstacle) (o : obstacle) :
  segment_obstacles depth_map ground_mask = Ok obstacles → o ∈ obstacles →
  (∃ p q, p ∈ points o ∧ q ∈ points o ∧
     pu p <= pu (centroid o) ∧ pu (centroid o) <= pu q) ∧
  (∃ p q, p ∈ points o ∧ q ∈ points o ∧
     pv p <= pv (centroid o) ∧ pv (centroid o) <= pv q).
Proof.
  intros (cloud & labels & Hcloud & Hfit & ->)%segment_obstacles_inv Ho.
  destruct (obstacle_points cloud labels o) as (Hne & Hc & _);
    [by eapply DBSCAN_fit_length|done|].
  split; apply centroid_between; auto.
Qed.

Lemma ring_depth_rectangular : np.rectangular ring_depth.
Proof.
  intros row (v & -> & _)%list_elem_of_fmap.
  rewrite length_fmap, length_seq. reflexivity.
Qed.

Lemma obstacle_centroid_in_box_witness :
  (∃ p q, p ∈ points ring_small_obstacle ∧ q ∈ points ring_small_obstacle ∧
     pu p <= pu (centroid ring_small_obstacle) ∧
     pu (centroid ring_small_obstacle) <= pu q) ∧
  (∃ p q, p ∈ points ring_small_obstacle ∧ q ∈ points ring_small_obstacle ∧
     pv p <= pv (centroid ring_small_obstacle) ∧
     pv (centroid ring_small_obstacle) <= pv q).
Proof.
  apply (obstacle_centroid_in_box ring_depth (estimate_ground_plane ring_depth)
           ring_obstacles ring_small_obstacle).
  - by vm_compute.
  - right. by left.
Defined.

(** X14: when depth map and mask are arrays, the centroid of every
    obstacle lies inside the image: its [u] is between 0 and [width - 1]
    and its [v] between 0 and [height - 1]. *)
Theorem obstacle_centroid_in_image (depth_map : list (list Q))
    (ground_mask : list (list bool)) (obstacles : list obstacle) (o : obstacle) :
  np.rectangular depth_map → np.rectangular ground_mask →
  segment_obstacles depth_map ground_mask = Ok obstacles → o ∈ obstacles →
  0 <= pu (centroid o) ∧ pu (centroid o) <= np.of_nat (np.shape depth_map).2 - 1 ∧
  0 <= pv (centroid o) ∧ pv (centroid o) <= np.of_nat (np.shape depth_map).1 - 1.
Proof.
  intros Hd Hm (cloud & labels & Hcloud & Hfit & ->)%segment_obstacles_inv Ho.
  destruct (obstacle_points cloud labels o) as (Hne & Hc & Hsub);
    [by eapply DBSCAN_fit_length|done|].
  assert (Hshape : np.shape depth_map = np.shape ground_mask).
  { unfold point_cloud, np.getitem_mask in Hcloud.
    destruct (np.where_ _) as [vs us]. unfold np.invert in Hcloud.
    rewrite shape_map in Hcloud. by case_bool_decide. }
  destruct (point_cloud_members depth_map ground_mask Hd Hm Hshape)
    as (cloud' & Hcloud' & Hmem).
  rewrite Hcloud in Hcloud'. injection Hcloud' as <-.
  assert (Hin : ∀ p, p ∈ points o →
            0 <= pu p ∧ pu p <= np.of_nat (np.shape depth_map).2 - 1 ∧
            0 <= pv p ∧ pv p <= np.of_nat (np.shape depth_map).1 - 1).
  { intros p (v & u & z & Hz & _ & ->)%Hsub%Hmem. simpl.
    pose proof (rectangular_width depth_map v u z Hd Hz) as Hu.
    assert (v < length depth_map)%nat as Hv.
    { unfold np.item in Hz. destruct (depth_map !! v) eqn:E; [|done].
      by eapply lookup_lt_Some. }
    unfold np.of_nat, Qle, Qminus, Qplus. simpl. lia. }
  destruct (centroid_between pu o Hne Hc ltac:(auto)) as (p1 & q1 & Hp1 & Hq1 & ? & ?).
  destruct (centroid_between pv o Hne Hc ltac:(auto)) as (p2 & q2 & Hp2 & Hq2 & ? & ?).
  pose proof (Hin p1 Hp1). pose proof (Hin q1 Hq1).
  pose proof (Hin p2 Hp2). pose proof (Hin q2 Hq2). lra.
Qed.

Lemma obstacle_centroid_in_image_witness :
  0 <= pu (centroid ring_small_obstacle) ∧
  pu (centroid ring_small_obstacle) <= np.of_nat (np.shape ring_depth).2 - 1 ∧
  0 <= pv (centroid ring_small_obstacle) ∧
  pv (centroid ring_small_obstacle) <= np.of_nat (np.shape ring_depth).1 - 1.
Proof.
  apply (obstacle_centroid_in_image ring_depth (estimate_ground_plane ring_depth)
           ring_obstacles ring_small_obstacle).
  - apply ring_depth_rectangular.
  - apply rectangular_estimate_ground_plane, ring_depth_rectangular.
  - by vm_compute.
  - right. by left.
Defined.

(** Labelled samples keep their label through the outer loop. *)
Lemma visit_keeps fuel is_core nbhds (state : list Z * Z) (i j : nat) (l : Z) :
  state.1 !! j = Some l → l ≠ (-1)%Z →
  (sklearn.visit fuel is_core nbhds state i).1 !! j = Some l.
Proof.
  destruct state as [labels num]. simpl. intros Hj Hl. unfold sklearn.visit.
  destruct (_ || _); [done|]. by apply expand_keeps.
Qed.

Lemma foldl_visit_keeps fuel is_core nbhds (todo : list nat) (state : list Z * Z)
    (j : nat) (l : Z) :
  state.1 !! j = Some l → l ≠ (-1)%Z →
  (foldl (sklearn.visit fuel is_core nbhds) state todo).1 !! j = Some l.
Proof.
  revert state. induction todo as [|i todo IH]; intros state Hj Hl; [done|].
  cbn [foldl]. apply IH; [|done]. by apply visit_keeps.
Qed.

Lemma visit_start fuel is_core nbhds (labels : list Z) (num : Z) (i : nat) :
  sklearn.unlabelled labels i = true → is_core !! i = Some true →
  sklearn.visit fuel is_core nbhds (labels, num) i
  = (sklearn.expand fuel is_core nbhds num i [] labels, (num + 1)%Z).
Proof. unfold sklearn.visit. by intros -> ->. Qed.

Lemma visit_pass fuel is_core nbhds (labels : list Z) (num : Z) (i : nat) :
  sklearn.unlabelled labels i = false →
  sklearn.visit fuel is_core nbhds (labels, num) i = (labels, num).
Proof. unfold sklearn.visit. by intros ->. Qed.

Lemma visit_labels_core fuel is_core nbhds (state : list Z * Z) (i : nat) :
  (0 ≤ state.2)%Z → (i < length state.1)%nat → is_core !! i = Some true →
  ∃ l, (sklearn.visit (S fuel) is_core nbhds state i).1 !! i = Some l ∧ l ≠ (-1)%Z.
Proof.
  destruct state as [labels num]. cbn [fst snd]. intros Hnum Hi Hcore.
  destruct (sklearn.unlabelled labels i) eqn:Hun.
  - rewrite visit_start by done. cbn [fst].
    exists num. split; [by apply expand_seed|lia].
  - rewrite visit_pass by done. cbn [fst].
    apply lookup_lt_is_Some in Hi as [l Hl].
    exists l. split; [done|].
    intros ->. apply unlabelled_spec in Hl. congruence.
Qed.

Lemma foldl_visit_labels_core fuel is_core nbhds (todo : list nat) (state : list Z * Z)
    (i : nat) :
  (0 ≤ state.2)%Z → i ∈ todo → (i < length state.1)%nat → is_core !! i = Some true →
  ∃ l, (foldl (sklearn.visit (S fuel) is_core nbhds) state todo).1 !! i = Some l
       ∧ l ≠ (-1)%Z.
Proof.
  revert state. induction todo as [|i0 todo IH]; intros state Hnum Hin Hi Hcore.
  - by apply elem_of_nil in Hin.
  - cbn [foldl]. apply elem_of_cons in Hin as [->|Hin].
    + destruct (visit_labels_core fuel is_core nbhds state i0 Hnum Hi Hcore)
        as (l & Hl & Hne).
      exists l. split; [|done]. by apply foldl_visit_keeps.
    + apply IH; [by apply visit_label_num|done|by rewrite visit_length|done].
Qed.

(** A core sample is never noise. *)
Lemma DBSCAN_fit_labels_core (eps : Q) (min_samples : nat) (X : list point)
    (labels : list Z) (i : nat) :
  sklearn.DBSCAN_fit eps min_samples X = Ok labels →
  sklearn.core_samples min_samples (sklearn.neighborhoods eps X) !! i = Some true →
  ∃ l, labels !! i = Some l ∧ l ≠ (-1)%Z.
Proof.
  unfold sklearn.DBSCAN_fit. destruct X as [|p X]; [done|].
  generalize (p :: X). clear p X. intros X [= <-] Hcore.
  unfold sklearn.dbscan_inner.
  assert (i < length X)%nat as Hi.
  { pose proof (lookup_lt_Some _ _ _ Hcore) as Hlt.
    unfold sklearn.core_samples, sklearn.neighborhoods in Hlt.
    by rewrite !length_fmap in Hlt. }
  apply foldl_visit_labels_core; [done| |cbn [fst]; by rewrite length_fmap|done].
  rewrite length_fmap. apply list_elem_of_In, in_seq. lia.
Qed.

Lemma dense_is_core (eps : Q) (min_samples : nat) (X : list point) (i : nat)
    (p : point) (js : list nat) :
  X !! i = Some p → NoDup js → (min_samples ≤ length js)%nat →
  (∀ j, j ∈ js → ∃ q, X !! j = Some q ∧ sklearn.sqdist p q <= eps * eps) →
  sklearn.core_samples min_samples (sklearn.neighborhoods eps X) !! i = Some true.
Proof.
  intros Hp Hnd Hlen Hnear. unfold sklearn.core_samples, sklearn.neighborhoods.
  rewrite !list_lookup_fmap, Hp. simpl. f_equal. apply bool_decide_eq_true.
  destruct (neighbors_from_spec eps p X 0) as [_ Hmem].
  etransitivity; [done|]. apply submseteq_length, NoDup_submseteq; [done|].
  intros j Hj. apply Hmem. split; [lia|]. rewrite Nat.sub_0_r. by apply Hnear.
Qed.

(** X15: a point of the cloud with at least 20 points of the cloud
    within distance 10 of it, itself counted, is never dropped as noise:
    it belongs to one of the obstacles that [segment_obstacles] returns. *)
Theorem dense_points_are_in_obstacles (depth_map : list (list Q))
    (ground_mask : list (list bool)) (obstacles : list obstacle) (cloud : list point)
    (i : nat) (p : point) (js : list nat) :
  segment_obstacles depth_map ground_mask = Ok obstacles →
  point_cloud depth_map ground_mask = Ok cloud →
  cloud !! i = Some p → NoDup js → (20 ≤ length js)%nat →
  (∀ j, j ∈ js → ∃ q, cloud !! j = Some q ∧ sklearn.sqdist p q <= 10 * 10) →
  ∃ o, o ∈ obstacles ∧ p ∈ points o.
Proof.
  intros (cloud' & labels & Hcloud' & Hfit & ->)%segment_obstacles_inv Hcloud.
  rewrite Hcloud in Hcloud'. injection Hcloud' as <-.
  intros Hp Hnd Hlen Hnear.
  pose proof (dense_is_core 10 20 cloud i p js Hp Hnd Hlen Hnear) as Hcore.
  destruct (DBSCAN_fit_labels_core _ _ _ _ i Hfit Hcore) as (l & Hl & Hne).
  eexists. split.
  - apply extract_obstacles_elem. exists l. split; [|split; [done|reflexivity]].
    by eapply list_elem_of_lookup_2.
  - simpl. apply elem_of_select_label. eauto.
Qed.

Lemma dense_points_are_in_obstacles_witness :
  ∃ o, o ∈ ring_obstacles ∧ Point 9 9 0 ∈ points o.
Proof.
  apply (dense_points_are_in_obstacles ring_depth (estimate_ground_plane ring_depth)
           ring_obstacles ring_cloud 17 (Point 9 9 0) ring_centre_neighbours).
  - by vm_compute.
  - by vm_compute.
  - reflexivity.
  - apply (bool_decide_unpack (NoDup ring_centre_neighbours)). by vm_compute.
  - vm_compute. lia.
  - apply Forall_forall.
    repeat (constructor; [eexists; split; [reflexivity|vm_compute; discriminate]|]).
    constructor.
Defined.

Lemma same_shape_item {A B} (a : list (list A)) (m : list (list B)) (v u : nat) (y : B) :
  np.rectangular a → np.rectangular m → np.shape a = np.shape m →
  np.item m v u = Some y → ∃ x, np.item a v u = Some x.
Proof.
  intros Ha Hm Hshape Hy.
  pose proof (rectangular_same_rows a m Ha Hm Hshape) as Hrows.
  unfold np.item in *. destruct (m !! v) as [mr|] eqn:Hmr; [|done]. simpl in Hy.
  destruct (Forall2_lookup_r _ _ _ _ _ Hrows Hmr) as (r & Hr & Hlen).
  rewrite Hr. simpl. apply lookup_lt_is_Some. rewrite Hlen. by eapply lookup_lt_Some.
Qed.

(** X16: on arrays of finite depths (no NaN, no infinity),
    [segment_obstacles] returns a list of obstacles exactly when depth map
    and mask have one shape and the mask leaves at least one pixel that is
    not ground; when the shapes differ, the boolean indexing of line 9
    raises [IndexError]. *)
Theorem segment_obstacles_returns (depth_map : list (list Q))
    (ground_mask : list (list bool)) :
  np.rectangular depth_map → np.rectangular ground_mask →
  ((∃ obstacles, segment_obstacles depth_map ground_mask = Ok obstacles) ↔
   np.shape depth_map = np.shape ground_mask ∧
   ∃ v u, np.item ground_mask v u = Some false) ∧
  (np.shape depth_map ≠ np.shape ground_mask →
   segment_obstacles depth_map ground_mask = Raise IndexError).
Proof.
  intros Hd Hm. split; [split|].
  - intros [obstacles (cloud & labels & Hcloud & Hfit & _)%segment_obstacles_inv].
    assert (Hshape : np.shape depth_map = np.shape ground_mask).
    { unfold point_cloud, np.getitem_mask in Hcloud.
      destruct (np.where_ _) as [vs us]. unfold np.invert in Hcloud.
      rewrite shape_map in Hcloud. by case_bool_decide. }
    split; [done|].
    destruct (point_cloud_members depth_map ground_mask Hd Hm Hshape)
      as (cloud' & Hcloud' & Hmem).
    rewrite Hcloud in Hcloud'. injection Hcloud' as <-.
    destruct cloud as [|p cloud]; [done|].
    destruct (proj1 (Hmem p) ltac:(by left)) as (v & u & z & _ & Hg & _). eauto.
  - intros (Hshape & v & u & Hg).
    destruct (point_cloud_members depth_map ground_mask Hd Hm Hshape)
      as (cloud & Hcloud & Hmem).
    destruct (same_shape_item depth_map ground_mask v u false Hd Hm Hshape Hg) as [z Hz].
    assert (Point (np.of_nat u) (np.of_nat v) z ∈ cloud) as Hp
      by (apply Hmem; eauto 6).
    unfold segment_obstacles. rewrite Hcloud. simpl.
    destruct cloud as [|p cloud]; [by apply elem_of_nil in Hp|]. simpl. eauto.
  - intros Hshape. unfold segment_obstacles, point_cloud, np.getitem_mask.
    destruct (np.where_ _) as [vs us]. unfold np.invert. rewrite shape_map.
    by rewrite bool_decide_false.
Qed.

Lemma segment_obstacles_returns_witness :
  ((∃ obstacles, segment_obstacles [[0; 1]] [[false; true]] = Ok obstacles) ↔
   np.shape [[0; 1]] = np.shape [[false; true]] ∧
   ∃ v u, np.item [[false; true]] v u = Some false) ∧
  (np.shape [[0; 1]] ≠ np.shape [[false; true]] →
   segment_obstacles [[0; 1]] [[false; true]] = Raise IndexError).
Proof.
  apply (segment_obstacles_returns [[0; 1]] [[false; true]]).
  - intros row ->%list_elem_of_singleton. reflexivity.
  - intros row ->%list_elem_of_singleton. reflexivity.
Defined.

(** ** More on the frame loop *)

Section FrameLoopMore.
Variable arctan2 : Q → Q → Q.
Variable pi : Q.
Variable Frame : Type.
Variable estimate_depth : Frame → list (list Q).

Lemma trigger_on_reading (obstacles : list obstacle) (w : world) :
  ∃ commands,
    trigger_haptic_feedback (map_obstacles_to_sectors arctan2 pi obstacles) w
    = (Ok tt, World (ser w ++ commands) (scene w) (stdout w)) ∧
    (length commands ≤ 3)%nat.
Proof.
  unfold map_obstacles_to_sectors. rewrite sort_into_sectors_eq. cbn [fmap list_fmap].
  eexists. split.
  - apply trigger_haptic_feedback_writes. simpl. intros k Hk.
    repeat (apply elem_of_cons in Hk as [->|Hk]; [by eexists|]).
    by apply elem_of_nil in Hk.
  - cbn [fmap list_fmap concat]. rewrite !length_app. simpl.
    pose proof (sector_output_length ("N"%string,
      match zs_where (angle_of arctan2 pi) in_N obstacles with
      | [] => None | d :: ds => Some (py.min d ds) end)).
    pose proof (sector_output_length ("NE"%string,
      match zs_where (angle_of arctan2 pi) in_NE obstacles with
      | [] => None | d :: ds => Some (py.min d ds) end)).
    pose proof (sector_output_length ("NW"%string,
      match zs_where (angle_of arctan2 pi) in_NW obstacles with
      | [] => None | d :: ds => Some (py.min d ds) end)).
    lia.
Qed.

Lemma main_round (c : cycle Frame) (rest : list (event Frame)) (w : world) :
  (∃ e, main arctan2 pi Frame estimate_depth (Tick c :: rest) w = (Raise e, w)) ∨
  ∃ frame obstacles commands,
    read c = (true, frame) ∧
    segment_obstacles (estimate_depth frame)
      (estimate_ground_plane (estimate_depth frame)) = Ok obstacles ∧
    (length commands ≤ 3)%nat ∧
    let w1 := World (ser w ++ commands) (scene w ++ [obstacles]) (stdout w) in
    main arctan2 pi Frame estimate_depth (Tick c :: rest) w
    = if (Z.land (key c) 255 =? 113)%Z then (Ok Returned, w1)
      else main arctan2 pi Frame estimate_depth rest w1.
Proof.
  cbn [main]. unfold mbind, IO_bind, lift, capture_frame.
  destruct (read c) as [[|] frame]; [|left; by eexists]. cbn [negb].
  destruct (segment_obstacles _ _) as [obstacles|e] eqn:Hseg; [|left; by eexists].
  right. destruct (trigger_on_reading obstacles w) as (commands & Htrig & Hlen).
  exists frame, obstacles, commands. do 3 (split; [done|]).
  rewrite Htrig. cbn. by destruct (Z.land (key c) 255 =? 113)%Z.
Qed.

Lemma main_effects (script : list (event Frame)) (w : world) :
  ∃ commands frames,
    (main arctan2 pi Frame estimate_depth script w).2
    = World (ser w ++ commands) (scene w ++ frames) (stdout w) ∧
    (length commands ≤ 3 * length script)%nat ∧
    (length frames ≤ length script)%nat.
Proof.
  revert w. induction script as [|[c|] script IH]; intros w.
  - exists [], []. rewrite !app_nil_r. by destruct w.
  - destruct (main_round c script w) as [[e ->]|H].
    + exists [], []. rewrite !app_nil_r. split; [by destruct w|simpl; lia].
    + destruct H as (frame & obstacles & commands & _ & _ & Hlen & ->).
      destruct (Z.land (key c) 255 =? 113)%Z.
      * exists commands, [obstacles]. split; [done|]. simpl. lia.
      * destruct (IH (World (ser w ++ commands) (scene w ++ [obstacles]) (stdout w)))
          as (commands' & frames' & -> & Hlen' & Hfr').
        exists (commands ++ commands'), (obstacles :: frames'). simpl.
        split; [by rewrite <- !app_assoc|]. rewrite length_app. simpl. lia.
  - exists [], []. rewrite !app_nil_r. split; [by destruct w|simpl; lia].
Qed.

(** X17: whatever the events, a run of the program only adds to what
    was written, and the rounds bound how much: at most three commands on
    the serial port and at most one obstacle list for the visualizer for
    every round begun, and at most one printed line, none while the loop
    is still running. *)
Theorem run_main_traffic (script : list (event Frame)) (w : world) :
  ∃ commands frames lines,
    (run_main arctan2 pi Frame estimate_depth script w).2
    = World (ser w ++ commands) (scene w ++ frames) (stdout w ++ lines) ∧
    (length commands ≤ 3 * length script)%nat ∧
    (length frames ≤ length script)%nat ∧
    (length lines ≤ 1)%nat ∧
    ((run_main arctan2 pi Frame estimate_depth script w).1 = Running → lines = []).
Proof.
  destruct (main_effects script w) as (commands & frames & Hw & Hlen & Hfr).
  unfold run_main.
  destruct (main arctan2 pi Frame estimate_depth script w) as [[[|]|e] w1];
    simpl in Hw; subst w1.
  - exists commands, frames, []. rewrite app_nil_r. simpl. repeat split; try done; lia.
  - exists commands, frames, []. rewrite app_nil_r. simpl. repeat split; try done; lia.
  - destruct e; eexists commands, frames, [_]; simpl; (split; [reflexivity|]);
      repeat split; try done; lia.
Qed.

(** X19: the [q] key is looked at last in a round: when the frame is
    captured and segmented and the low byte of the key code is 113, the
    commands of the frame are on the serial port and the frame is in the
    scene by the time [main] returns, and what follows is not run. *)
Theorem main_completes_frame_before_quit (c : cycle Frame) (frame : Frame)
    (obstacles : list obstacle) (rest : list (event Frame)) (w : world) :
  read c = (true, frame) →
  segment_obstacles (estimate_depth frame)
    (estimate_ground_plane (estimate_depth frame)) = Ok obstacles →
  Z.land (key c) 255 = 113%Z →
  ∃ commands,
    main arctan2 pi Frame estimate_depth (Tick c :: rest) w
    = (Ok Returned,
       World (ser w ++ commands) (scene w ++ [obstacles]) (stdout w)) ∧
    trigger_haptic_feedback (map_obstacles_to_sectors arctan2 pi obstacles) w
    = (Ok tt, World (ser w ++ commands) (scene w) (stdout w)).
Proof.
  intros Hread Hseg Hkey.
  destruct (trigger_on_reading obstacles w) as (commands & Htrig & _).
  exists commands. split; [|done].
  cbn [main]. unfold mbind, IO_bind, lift, capture_frame.
  rewrite Hread. cbn [negb]. rewrite Hseg, Htrig. cbn. by rewrite Hkey.
Qed.
End FrameLoopMore.

Lemma main_completes_frame_before_quit_witness :
  ∃ commands,
    main arctan2_approx pi_approx depth_frame estimate_depth_id
      (Tick (Cycle (true, [[0]]) 369) :: [CtrlC]) world0
    = (Ok Returned,
       World (ser world0 ++ commands) (scene world0 ++ [[]]) (stdout world0)) ∧
    trigger_haptic_feedback (map_obstacles_to_sectors arctan2_approx pi_approx []) world0
    = (Ok tt, World (ser world0 ++ commands) (scene world0) (stdout world0)).
Proof.
  apply (main_completes_frame_before_quit arctan2_approx pi_approx depth_frame
           estimate_depth_id (Cycle (true, [[0]]) 369) [[0]] [] [CtrlC] world0).
  - reflexivity.
  - by vm_compute.
  - reflexivity.
Defined.

(** ** The boxes of the visualizer *)


Lemma normalized_frame_has_no_ground_witness :
  np.item (estimate_ground_plane (np.div_scalar (np.sub_scalar [[1; 3]] 1) (3 - 1)))
    0 0 = Some false ∧
  false = false.
Proof.
  split; [reflexivity|].
  apply (normalized_frame_has_no_ground [[1; 3]]
           (np.div_scalar (np.sub_scalar [[1; 3]] 1) (3 - 1)) 0 0 false).
  - reflexivity.
  - vm_compute. discriminate.
  - reflexivity.
Defined.
